(** * JSON to SQL/CSV conversion: the flattener and the two generators

    A shallow embedding of [server/lib/json-parser.ts] (the flattener and the
    CSV generator, which the repository imports as [lib/csv-generator]) and of
    [server/lib/sql-generator.ts], followed by the properties the
    specification states about them.  The pending conversions of
    [server/storage.ts] and the routes of [server/routes.ts] that call the
    flattener and the generators are embedded as well, with further
    properties of all of them.

    Modelling conventions.
    - A JavaScript value is a term of [any].  Strings are Rocq strings, one
      character per code unit, so [String.length] is the [.length] of the
      source for strings whose code units fit in one byte.
    - A number is kept by what the code observes of it: whether it is an
      integer, whether it is finite, and the text [toString] gives.  An
      integer is written in decimal, as [toString] does below 10^21; a
      finite number that is not an integer carries its text.
    - An object is used as a map from names to values and is the list of its
      own properties in the order in which [Object.keys] and
      [Object.entries] enumerate them; [set] follows the ordering of ordinary
      objects (array-index names first, ascending, then the other names in
      creation order).  Reading a name the object does not own gives
      undefined: the names that [Object.prototype] defines, [__proto__]
      among them, are outside the model.
    - The generation timestamp of the SQL header is an argument.
    - A route is a function from what it reads (the request, the environment,
      the paid sessions, the storage) to the response and what it leaves
      behind.  What comes from outside the repository is an argument:
      [JSON.parse], the two calls to Stripe, the fresh identifier and the
      date.  A call that throws gives its message; an exception nothing in
      the code raises is outside the model. *)

From Stdlib Require Import List String Ascii ZArith Bool Lia PeanoNat Permutation.
From Stdlib Require Import Numbers.DecimalString.
Import ListNotations.
Open Scope string_scope.

(** ** JavaScript values *)

Module JS.

Inductive number : Type :=
| NInt (z : Z)               (* a finite, integral value *)
| NFrac (text : string)      (* a finite, non-integral value with its [toString] text *)
| NInfinity (negative : bool)
| NaN.

Unset Elimination Schemes.
Inductive any : Type :=
| JUndefined
| JNull
| JBool (b : bool)
| JNum (n : number)
| JStr (s : string)
| JArr (items : list any)
| JObj (entries : list (string * any)).
Set Elimination Schemes.

(** [Record<string, any>]: own properties in enumeration order. *)
Definition record : Type := list (string * any).

Definition Number_isInteger (n : number) : bool :=
  match n with NInt _ => true | _ => false end.

Definition Number_isFinite (n : number) : bool :=
  match n with NInt _ | NFrac _ => true | _ => false end.

Definition Z_toString (z : Z) : string := NilEmpty.string_of_int (Z.to_int z).

Definition nat_toString (n : nat) : string := NilEmpty.string_of_uint (Nat.to_uint n).

Definition Number_toString (n : number) : string :=
  match n with
  | NInt z => Z_toString z
  | NFrac text => text
  | NInfinity false => "Infinity"
  | NInfinity true => "-Infinity"
  | NaN => "NaN"
  end.

(** [String(value)].  An array is its elements joined with a comma, null and
    undefined elements contributing nothing; a plain object is the fixed text
    of [Object.prototype.toString]. *)
Fixpoint ToString (v : any) : string :=
  match v with
  | JUndefined => "undefined"
  | JNull => "null"
  | JBool true => "true"
  | JBool false => "false"
  | JNum n => Number_toString n
  | JStr s => s
  | JArr items =>
      (fix joinItems (l : list any) : string :=
         let element (x : any) : string :=
           match x with
           | JUndefined | JNull => EmptyString
           | _ => ToString x
           end in
         match l with
         | [] => EmptyString
         | [x] => element x
         | x :: (_ :: _) as rest => element x ++ "," ++ joinItems rest
         end) items
  | JObj _ => "[object Object]"
  end.

(** The text an array element contributes to [Array.prototype.join]. *)
Definition joinElement (x : any) : string :=
  match x with
  | JUndefined | JNull => EmptyString
  | _ => ToString x
  end.

Definition Array_join (l : list any) (sep : string) : string :=
  String.concat sep (map joinElement l).

(** [typeof v === 'object'] *)
Definition typeof_object (v : any) : bool :=
  match v with JNull | JArr _ | JObj _ => true | _ => false end.

Definition isNullish (v : any) : bool :=
  match v with JUndefined | JNull => true | _ => false end.

(** *** Property names and their order *)

Definition isDigit (c : ascii) : bool :=
  (48 <=? nat_of_ascii c)%nat && (nat_of_ascii c <=? 57)%nat.

Fixpoint digitsValue (s : string) (acc : N) : option N :=
  match s with
  | EmptyString => Some acc
  | String c s' =>
      if isDigit c
      then digitsValue s' (acc * 10 + (N_of_ascii c - 48))%N
      else None
  end.

(** A property name is an array index when it is the canonical decimal text
    of an integer between 0 and 2^32 - 2. *)
Definition arrayIndex (k : string) : option N :=
  match k with
  | EmptyString => None
  | String "0"%char EmptyString => Some 0%N
  | String "0"%char _ => None
  | _ =>
      match digitsValue k 0 with
      | Some n => if (n <=? 4294967294)%N then Some n else None
      | None => None
      end
  end.

(** [Object.prototype.hasOwnProperty.call(r, k)] *)
Fixpoint has (r : record) (k : string) : bool :=
  match r with
  | [] => false
  | (k', _) :: r' => (k' =? k) || has r' k
  end.

(** [r[k]], undefined for a missing property. *)
Fixpoint get (r : record) (k : string) : any :=
  match r with
  | [] => JUndefined
  | (k', v) :: r' => if k' =? k then v else get r' k
  end.

Fixpoint overwrite (r : record) (k : string) (v : any) : record :=
  match r with
  | [] => []
  | (k', v') :: r' =>
      if k' =? k then (k', v) :: r' else (k', v') :: overwrite r' k v
  end.

Fixpoint insertIndex (r : record) (n : N) (k : string) (v : any) : record :=
  match r with
  | [] => [(k, v)]
  | (k', v') :: r' =>
      match arrayIndex k' with
      | Some n' =>
          if (n' <? n)%N then (k', v') :: insertIndex r' n k v
          else (k, v) :: r
      | None => (k, v) :: r
      end
  end.

(** [r[k] = v] on a copy: an existing property keeps its place, a new
    array-index name goes among the index names in ascending order, any other
    new name goes last. *)
Definition set (r : record) (k : string) (v : any) : record :=
  if has r k then overwrite r k v
  else match arrayIndex k with
       | Some n => insertIndex r n k v
       | None => (r ++ [(k, v)])%list
       end.

(** [{ ...base, ...r }] *)
Definition spread (base r : record) : record :=
  fold_left (fun acc kv => set acc (fst kv) (snd kv)) r base.

Definition keys (r : record) : list string := map fst r.

(** [prefix || 'value'] *)
Definition orValue (prefix : string) : string :=
  match prefix with EmptyString => "value" | _ => prefix end.

End JS.

Import JS.

(** ** [json-parser.ts]: nesting depth and flattening *)

Module JsonParser.

(** [getNestingLevel(obj, currentLevel)]: the loop over [Object.values(obj)]
    is a left fold whose accumulator is [maxLevel]. *)
Fixpoint getNestingLevel (obj : any) (currentLevel : nat) : nat :=
  match obj with
  | JArr items =>
      fold_left
        (fun maxLevel value => Nat.max maxLevel (getNestingLevel value (currentLevel + 1)))
        items currentLevel
  | JObj entries =>
      fold_left
        (fun maxLevel kv => Nat.max maxLevel (getNestingLevel (snd kv) (currentLevel + 1)))
        entries currentLevel
  | _ => currentLevel
  end.

(** The predicate given to [every] in both places of [explodeObject]. *)
Definition isPrimitiveItem (item : any) : bool :=
  match item with
  | JUndefined | JNull | JStr _ | JNum _ | JBool _ => true
  | _ => false
  end.

Definition allPrimitives (items : list any) : bool := forallb isPrimitiveItem items.

(** [items.filter(x => x !== null && x !== undefined).join(', ')] *)
Definition joinPrimitives (items : list any) : string :=
  Array_join (filter (fun x => negb (isNullish x)) items) ", ".

Definition indexKey (prefix : string) (arrayLevel : nat) : string :=
  match prefix with
  | EmptyString => "_index_level_" ++ nat_toString arrayLevel
  | _ => prefix ++ "_index"
  end.

Definition fullKeyOf (prefix key : string) : string :=
  match prefix with
  | EmptyString => key
  | _ => prefix ++ "_" ++ key
  end.

(** [sourcePath || other] *)
Definition orElse (s other : string) : string :=
  match s with EmptyString => other | _ => s end.

(** The merge of a single nested record into the base context: a field is
    taken only when the base context does not own it yet. *)
Definition mergeMissing (baseContext singleRecord : record) : record :=
  fold_left
    (fun base kv => if has base (fst kv) then base else set base (fst kv) (snd kv))
    singleRecord baseContext.

(** The two loops of [explodeObject], over the function they call back. *)
Section Loops.

Variable explode : any -> string -> record -> string -> nat -> list record.
Variables (prefix sourcePath : string) (arrayLevel : nat).

(** [obj.forEach((item, idx) => ...)] of the object-array case: every item
    is exploded under the parent context extended with its index, and the
    records are pushed to [allRecords] in item order. *)
Fixpoint explodeItems (parentContext : record) (items : list any) (idx : nat)
    : list record :=
  match items with
  | [] => []
  | item :: rest =>
      let newSourcePath := orElse sourcePath (orElse prefix "root") in
      let itemRecords :=
        explode item prefix
          (set parentContext (indexKey prefix arrayLevel) (JNum (NInt (Z.of_nat idx))))
          newSourcePath (arrayLevel + 1) in
      (itemRecords ++ explodeItems parentContext rest (S idx))%list
  end.

(** [for (const [key, value] of Object.entries(obj))], carrying
    [baseContext] and [nestedExplosions]. *)
Fixpoint explodeEntries (entries : list (string * any)) (baseContext : record)
    (nestedExplosions : list record) : record * list record :=
  match entries with
  | [] => (baseContext, nestedExplosions)
  | (key, value) :: rest =>
      let fullKey := fullKeyOf prefix key in
      match value with
      | JUndefined | JNull =>
          explodeEntries rest (set baseContext fullKey JNull) nestedExplosions
      | JStr _ | JNum _ | JBool _ =>
          explodeEntries rest (set baseContext fullKey value) nestedExplosions
      | JArr elems =>
          match elems with
          | [] => explodeEntries rest (set baseContext fullKey JNull) nestedExplosions
          | _ :: _ =>
              if allPrimitives elems
              then explodeEntries rest
                     (set baseContext fullKey (JStr (joinPrimitives elems)))
                     nestedExplosions
              else
                let newSourcePath := orElse sourcePath fullKey in
                let arrayRecords :=
                  explode value fullKey baseContext newSourcePath (arrayLevel + 1) in
                explodeEntries rest baseContext (nestedExplosions ++ arrayRecords)%list
          end
      | JObj _ =>
          let nestedRecords :=
            explode value fullKey baseContext sourcePath arrayLevel in
          match nestedRecords with
          | [] => explodeEntries rest baseContext nestedExplosions
          | [singleRecord] =>
              explodeEntries rest (mergeMissing baseContext singleRecord)
                nestedExplosions
          | _ :: _ :: _ =>
              explodeEntries rest baseContext (nestedExplosions ++ nestedRecords)%list
          end
      end
  end.

End Loops.

(** [explodeObject(obj, prefix, parentContext, sourcePath, arrayLevel)] *)
Fixpoint explodeObject (obj : any) (prefix : string) (parentContext : record)
    (sourcePath : string) (arrayLevel : nat) {struct obj} : list record :=
  match obj with
  | JUndefined | JNull => [set parentContext (orValue prefix) JNull]
  | JBool _ | JNum _ | JStr _ => [set parentContext (orValue prefix) obj]
  | JArr items =>
      match items with
      | [] => [set parentContext prefix JNull]
      | _ :: _ =>
          if allPrimitives items
          then [set parentContext prefix (JStr (joinPrimitives items))]
          else
            let allRecords :=
              explodeItems explodeObject prefix sourcePath arrayLevel
                parentContext items 0 in
            match allRecords with
            | [] => [parentContext]
            | _ :: _ => allRecords
            end
      end
  | JObj entries =>
      let '(baseContext, nestedExplosions) :=
        explodeEntries explodeObject prefix sourcePath arrayLevel
          entries parentContext [] in
      match nestedExplosions with
      | [] => [baseContext]
      | _ :: _ => map (fun rec => spread baseContext rec) nestedExplosions
      end
  end.

Record ParsedJSON : Type := {
  data : list record;
  maxNestingLevel : nat;
  objectCount : nat
}.

(** [parseAndFlattenJSON] after [JSON.parse]: [parsed] is the parsed value. *)
Definition parseAndFlattenJSON (parsed : any) : ParsedJSON :=
  let maxNestingLevel := getNestingLevel parsed 0 in
  let records := explodeObject parsed EmptyString [] EmptyString 0 in
  {| data := records;
     maxNestingLevel := maxNestingLevel;
     objectCount := List.length records |}.

(** The specification's [flatten]: the record set and the depth. *)
Definition flatten (value : any) : list record * nat :=
  let p := parseAndFlattenJSON value in (data p, maxNestingLevel p).

End JsonParser.

Import JsonParser.

(** ** Text helpers shared by the two generators *)

Module Text.

Definition DQUOTE : ascii := "034"%char.
Definition SQUOTE : ascii := "039"%char.
Definition BACKSLASH : ascii := "092"%char.
Definition LF : ascii := "010"%char.
Definition CR : ascii := "013"%char.

Definition str (c : ascii) : string := String c EmptyString.

(** [s.includes(c)] for a one-character needle. *)
Fixpoint includes (s : string) (c : ascii) : bool :=
  match s with
  | EmptyString => false
  | String c' s' => (c' =? c)%char || includes s' c
  end.

(** [s.replace(/c/g, by)] for a one-character pattern. *)
Fixpoint replaceAll (s : string) (c : ascii) (by_ : string) : string :=
  match s with
  | EmptyString => EmptyString
  | String c' s' =>
      if (c' =? c)%char then by_ ++ replaceAll s' c by_
      else String c' (replaceAll s' c by_)
  end.

Definition mapChars (f : ascii -> ascii) : string -> string :=
  fix go (s : string) : string :=
    match s with
    | EmptyString => EmptyString
    | String c s' => String (f c) (go s')
    end.

Definition hexDigit (n : nat) : ascii :=
  nth n
    ["0"; "1"; "2"; "3"; "4"; "5"; "6"; "7"; "8"; "9"; "a"; "b"; "c"; "d"; "e"; "f"]%char
    "0"%char.

(** The escape [JSON.stringify] writes for one character of a string. *)
Definition jsonQuoteChar (c : ascii) : string :=
  if (c =? DQUOTE)%char then String BACKSLASH (str DQUOTE)
  else if (c =? BACKSLASH)%char then String BACKSLASH (str BACKSLASH)
  else
    match nat_of_ascii c with
    | 8 => String BACKSLASH "b"
    | 9 => String BACKSLASH "t"
    | 10 => String BACKSLASH "n"
    | 12 => String BACKSLASH "f"
    | 13 => String BACKSLASH "r"
    | n =>
        if (n <? 32)%nat
        then String BACKSLASH "u00" ++ str (hexDigit (n / 16)) ++ str (hexDigit (n mod 16))
        else str c
    end.

Fixpoint jsonQuoteChars (s : string) : string :=
  match s with
  | EmptyString => EmptyString
  | String c s' => jsonQuoteChar c ++ jsonQuoteChars s'
  end.

Definition jsonQuote (s : string) : string :=
  str DQUOTE ++ jsonQuoteChars s ++ str DQUOTE.

(** [JSON.stringify(v)]; [None] is the undefined result.  In an array an
    undefined element is written as null, in an object a property whose value
    is undefined is left out, and a non-finite number is written as null. *)
Fixpoint JSON_stringify (v : any) : option string :=
  match v with
  | JUndefined => None
  | JNull => Some "null"
  | JBool true => Some "true"
  | JBool false => Some "false"
  | JNum n => Some (if Number_isFinite n then Number_toString n else "null")
  | JStr s => Some (jsonQuote s)
  | JArr items =>
      Some ("[" ++
            String.concat ","
              (map (fun x => match JSON_stringify x with
                             | Some t => t
                             | None => "null"
                             end) items)
            ++ "]")
  | JObj entries =>
      Some ("{" ++
            String.concat ","
              (flat_map (fun kv => match JSON_stringify (snd kv) with
                                   | Some t => [jsonQuote (fst kv) ++ ":" ++ t]
                                   | None => []
                                   end) entries)
            ++ "}")
  end.

End Text.

Import Text.

(** ** The CSV generator *)

Module CsvGenerator.

(** [columnMap]: a [Map<string, number>], its entries in insertion order. *)
Definition ColumnMap : Type := list (string * nat).

Definition Map_has (m : ColumnMap) (key : string) : bool :=
  existsb (fun e => fst e =? key) m.

(** The body of the inner [forEach]: a key not yet in the map is set to the
    current size of the map. *)
Definition noteKey (columnMap : ColumnMap) (key : string) : ColumnMap :=
  if Map_has columnMap key then columnMap
  else (columnMap ++ [(key, List.length columnMap)])%list.

Definition collectColumnMap (data : list record) : ColumnMap :=
  fold_left (fun columnMap record => fold_left noteKey (keys record) columnMap) data [].

(** [Array.from(columnMap.keys())] *)
Definition headersOf (data : list record) : list string :=
  map fst (collectColumnMap data).

(** [/^[=+\-@]/.test(s)] *)
Definition startsWithFormulaChar (s : string) : bool :=
  match s with
  | EmptyString => false
  | String c _ =>
      (c =? "=")%char || (c =? "+")%char || (c =? "-")%char || (c =? "@")%char
  end.

Definition needsQuoting (stringValue : string) : bool :=
  includes stringValue ","%char
  || includes stringValue DQUOTE
  || includes stringValue LF
  || includes stringValue CR
  || startsWithFormulaChar stringValue.

(** The text [escapeCSVValue] works on: [JSON.stringify] for an object or an
    array, which is never undefined, [String] for the rest. *)
Definition stringForm (value : any) : string :=
  if typeof_object value
  then match JSON_stringify value with Some t => t | None => "undefined" end
  else ToString value.

Definition escapeCSVValue (value : any) : string :=
  if isNullish value then EmptyString
  else
    let stringValue := stringForm value in
    if needsQuoting stringValue
    then
      let escaped := replaceAll stringValue DQUOTE (String DQUOTE (str DQUOTE)) in
      str DQUOTE ++ escaped ++ str DQUOTE
    else stringValue.

Definition csvRow (headers : list string) (record : record) : string :=
  String.concat "," (map (fun header => escapeCSVValue (get record header)) headers).

Definition generateCSV (data : list record) : string :=
  match data with
  | [] => EmptyString
  | _ :: _ =>
      let headers := headersOf data in
      let headerRow := String.concat "," (map (fun h => escapeCSVValue (JStr h)) headers) in
      let dataRows := map (csvRow headers) data in
      String.concat (str LF) (headerRow :: dataRows)
  end.

End CsvGenerator.

Import CsvGenerator.

(** ** The SQL generator *)

Module SqlGenerator.

Definition escapeIdentifier (identifier : string) : string :=
  str DQUOTE ++ replaceAll identifier DQUOTE (String DQUOTE (str DQUOTE)) ++ str DQUOTE.

(** The mutable locals of [inferSQLType]. *)
Record Profile : Type := {
  hasNull : bool;
  hasNumber : bool;
  hasBoolean : bool;
  hasString : bool;
  allIntegers : bool;
  maxLength : nat
}.

Definition initialProfile : Profile :=
  {| hasNull := false; hasNumber := false; hasBoolean := false;
     hasString := false; allIntegers := true; maxLength := 0 |}.

(** One iteration of the loop over [values]. *)
Definition observe (p : Profile) (value : any) : Profile :=
  match value with
  | JUndefined | JNull =>
      {| hasNull := true; hasNumber := hasNumber p; hasBoolean := hasBoolean p;
         hasString := hasString p; allIntegers := allIntegers p;
         maxLength := maxLength p |}
  | JBool _ =>
      {| hasNull := hasNull p; hasNumber := hasNumber p; hasBoolean := true;
         hasString := hasString p; allIntegers := allIntegers p;
         maxLength := maxLength p |}
  | JNum n =>
      {| hasNull := hasNull p; hasNumber := true; hasBoolean := hasBoolean p;
         hasString := hasString p;
         allIntegers :=
           if negb (Number_isInteger n) || negb (Number_isFinite n)
           then false else allIntegers p;
         maxLength := maxLength p |}
  | JStr s =>
      {| hasNull := hasNull p; hasNumber := hasNumber p; hasBoolean := hasBoolean p;
         hasString := true; allIntegers := allIntegers p;
         maxLength := Nat.max (maxLength p) (String.length s) |}
  | JArr _ | JObj _ =>
      let strValue := ToString value in
      {| hasNull := hasNull p; hasNumber := hasNumber p; hasBoolean := hasBoolean p;
         hasString := true; allIntegers := allIntegers p;
         maxLength := Nat.max (maxLength p) (String.length strValue) |}
  end.

Definition profileOf (values : list any) : Profile :=
  fold_left observe values initialProfile.

Definition inferSQLType (columnName : string) (values : list any) : string :=
  let p := profileOf values in
  if hasBoolean p && negb (hasNumber p) && negb (hasString p) then "BOOLEAN"
  else if hasNumber p && negb (hasString p) then
    if allIntegers p then "BIGINT" else "DOUBLE PRECISION"
  else if (maxLength p =? 0)%nat then "TEXT"
  else if (maxLength p <=? 255)%nat then "VARCHAR(255)"
  else "TEXT".

Definition isIdentChar (c : ascii) : bool :=
  let n := nat_of_ascii c in
  ((97 <=? n) && (n <=? 122) || (65 <=? n) && (n <=? 90)
   || (48 <=? n) && (n <=? 57) || (n =? 95))%nat.

(** [tableName.replace(/[^a-zA-Z0-9_]/g, '_')] *)
Definition sanitizeTableName (tableName : string) : string :=
  mapChars (fun c => if isIdentChar c then c else "_"%char) tableName.

(** [columnSet.add(key)] on a [Set<string>] kept in insertion order. *)
Definition Set_add (columnSet : list string) (key : string) : list string :=
  if existsb (fun k => k =? key) columnSet then columnSet
  else (columnSet ++ [key])%list.

Definition columnsOf (data : list record) : list string :=
  fold_left (fun columnSet record => fold_left Set_add (keys record) columnSet) data [].

(** [columnTypes]: a [Map<string, string>] with one entry per column. *)
Definition columnTypesOf (data : list record) (columns : list string)
    : list (string * string) :=
  map (fun col => (col, inferSQLType col (map (fun record => get record col) data)))
      columns.

Fixpoint Map_get (m : list (string * string)) (key : string) : option string :=
  match m with
  | [] => None
  | (k, v) :: m' => if k =? key then Some v else Map_get m' key
  end.

(** [columnTypes.get(col) || 'TEXT'] *)
Definition typeOrText (m : list (string * string)) (col : string) : string :=
  match Map_get m col with
  | None | Some EmptyString => "TEXT"
  | Some t => t
  end.

(** The lines pushed by [columns.forEach((col, idx) => ...)], [idx] counting
    from the given start and [total] being [columns.length]. *)
Fixpoint columnLines (m : list (string * string)) (total : nat)
    (columns : list string) (idx : nat) : list string :=
  match columns with
  | [] => []
  | col :: rest =>
      let type := typeOrText m col in
      let comma := if (idx <? total - 1)%nat then "," else EmptyString in
      ("  " ++ escapeIdentifier col ++ " " ++ type ++ comma)
        :: columnLines m total rest (S idx)
  end.

(** How one value is written in the VALUES list of an INSERT. *)
Definition sqlValue (value : any) : string :=
  match value with
  | JUndefined | JNull => "NULL"
  | JNum n => if negb (Number_isFinite n) then "NULL" else Number_toString n
  | JBool b => if b then "TRUE" else "FALSE"
  | _ =>
      let stringValue := replaceAll (ToString value) SQUOTE (String SQUOTE (str SQUOTE)) in
      str SQUOTE ++ stringValue ++ str SQUOTE
  end.

Definition insertStatement (safeTableName : string) (columns : list string)
    (record : record) : string :=
  let values := map (fun col => sqlValue (get record col)) columns in
  let columnList := String.concat ", " (map escapeIdentifier columns) in
  "INSERT INTO " ++ escapeIdentifier safeTableName ++ " (" ++ columnList
    ++ ") VALUES (" ++ String.concat ", " values ++ ");".

Definition createTable (safeTableName : string) (data : list record)
    (columns : list string) : string :=
  let columnTypes := columnTypesOf data columns in
  let firstLine := "CREATE TABLE " ++ escapeIdentifier safeTableName ++ " (" in
  let createTableLines :=
    (firstLine :: columnLines columnTypes (List.length columns) columns 0
       ++ [");"])%list in
  String.concat (str LF) createTableLines.

(** [generateSQL(data, tableName)]; [now] is the text of
    [new Date().toISOString()] at the call. *)
Definition generateSQL (now : string) (data : list record) (tableName : string)
    : string :=
  match data with
  | [] => "-- No data to convert"
  | _ :: _ =>
      let safeTableName := sanitizeTableName tableName in
      let columns := columnsOf data in
      let createTableSQL := createTable safeTableName data columns in
      let insertStatements := map (insertStatement safeTableName columns) data in
      "-- SQL Generated: " ++ now ++ str LF
        ++ "-- Table: " ++ safeTableName ++ str LF
        ++ "-- Records: " ++ nat_toString (List.length data) ++ str LF ++ str LF
        ++ createTableSQL ++ str LF ++ str LF
        ++ String.concat (str LF) insertStatements
  end.

End SqlGenerator.

Import SqlGenerator.

(** ** Vocabulary of the specification *)

(** A scalar: null, a boolean, a number or a string. *)
Definition isScalar (v : any) : bool :=
  match v with
  | JNull | JBool _ | JNum _ | JStr _ => true
  | JUndefined | JArr _ | JObj _ => false
  end.

(** A flat record holds scalars only. *)
Definition flatRecord (r : record) : Prop :=
  Forall (fun kv => isScalar (snd kv) = true) r.

(** Induction on values, with the hypothesis for every item of an array and
    for every property value of an object. *)
Definition any_ind (P : any -> Prop)
    (HUndefined : P JUndefined) (HNull : P JNull)
    (HBool : forall b, P (JBool b)) (HNum : forall n, P (JNum n))
    (HStr : forall s, P (JStr s))
    (HArr : forall items, Forall P items -> P (JArr items))
    (HObj : forall entries, Forall (fun kv => P (snd kv)) entries -> P (JObj entries))
    : forall v, P v :=
  fix go (v : any) : P v :=
    match v with
    | JUndefined => HUndefined
    | JNull => HNull
    | JBool b => HBool b
    | JNum n => HNum n
    | JStr s => HStr s
    | JArr items =>
        HArr items
          ((fix goItems (l : list any) : Forall P l :=
              match l with
              | [] => Forall_nil P
              | x :: l' => Forall_cons x (go x) (goItems l')
              end) items)
    | JObj entries =>
        HObj entries
          ((fix goEntries (l : list (string * any))
              : Forall (fun kv => P (snd kv)) l :=
              match l with
              | [] => Forall_nil _
              | kv :: l' => Forall_cons kv (go (snd kv)) (goEntries l')
              end) entries)
    end.

(** What the induction carries: under a flat parent context a value explodes
    into at least one record, and every record is flat. *)
Definition explodesFlat (obj : any) : Prop :=
  forall prefix parentContext sourcePath arrayLevel,
    flatRecord parentContext ->
    explodeObject obj prefix parentContext sourcePath arrayLevel <> []
    /\ Forall flatRecord (explodeObject obj prefix parentContext sourcePath arrayLevel).

(** No array anywhere inside the value. *)
Fixpoint arrayFree (v : any) : bool :=
  match v with
  | JArr _ => false
  | JObj entries => forallb (fun kv => arrayFree (snd kv)) entries
  | _ => true
  end.

(** An object with no array inside. *)
Definition plainObject (v : any) : bool :=
  match v with
  | JObj _ => arrayFree v
  | _ => false
  end.

(** Two records hold the same fields with the same values. *)
Definition sameFields (r1 r2 : record) : Prop :=
  forall k, has r1 k = has r2 k /\ get r1 k = get r2 k.

Definition acme : any :=
  JObj [("company", JStr "Acme");
        ("users", JArr [JObj [("id", JNum (NInt 1))]; JObj [("id", JNum (NInt 2))]]);
        ("orders", JArr [JObj [("id", JStr "A")]])].

(** The rows an object entry adds to the nested explosions: the length of an
    array of plain objects, nothing for a value without arrays. *)
Definition entryRows (kv : string * any) : nat :=
  match snd kv with
  | JArr items => List.length items
  | _ => 0
  end.

Definition entryShape (kv : string * any) : bool :=
  match snd kv with
  | JArr items => forallb plainObject items
  | v => arrayFree v
  end.

(** [Object.values(v)] for an array or an object. *)
Definition children (v : any) : list any :=
  match v with
  | JArr items => items
  | JObj entries => map snd entries
  | _ => []
  end.

(** The number of steps from a value down to its deepest descendant. *)
Fixpoint height (v : any) : nat :=
  match v with
  | JArr items => list_max (map (fun child => S (height child)) items)
  | JObj entries => list_max (map (fun kv => S (height (snd kv))) entries)
  | _ => 0
  end.

Definition isContainer (v : any) : bool :=
  match v with JArr _ | JObj _ => true | _ => false end.

(** The depth rule in the words of the specification: the root is at depth
    0, a child that is a container is one deeper than its parent, a child that
    is a primitive or null is at the depth of its parent, and the result is
    the greatest depth met. *)
Fixpoint ruleVisit (v : any) (depth : nat) : nat :=
  match v with
  | JArr items =>
      fold_left
        (fun deepest child =>
           Nat.max deepest
             (ruleVisit child (if isContainer child then depth + 1 else depth)))
        items depth
  | JObj entries =>
      fold_left
        (fun deepest kv =>
           Nat.max deepest
             (ruleVisit (snd kv) (if isContainer (snd kv) then depth + 1 else depth)))
        entries depth
  | _ => depth
  end.

Definition ruleDepth (v : any) : nat := ruleVisit v 0.

Definition abc : any := JObj [("a", JObj [("b", JObj [("c", JNum (NInt 1))])])].

(** The elements that are neither null nor undefined. *)
Definition nonNull (items : list any) : list any :=
  filter (fun x => negb (isNullish x)) items.

(** The joined text in the words of the specification. *)
Definition joinedText (items : list any) : string :=
  String.concat ", " (map ToString (nonNull items)).

Definition isBooleanValue (v : any) : bool :=
  match v with JBool _ => true | _ => false end.

Definition isNumberValue (v : any) : bool :=
  match v with JNum _ => true | _ => false end.

(** A string, or an object or array (which is read through its string). *)
Definition isTextValue (v : any) : bool :=
  match v with JStr _ | JArr _ | JObj _ => true | _ => false end.

(** A value that is not a number, or a number that is a finite integer. *)
Definition finiteIntegerIfNumber (v : any) : bool :=
  match v with
  | JNum n => Number_isInteger n && Number_isFinite n
  | _ => true
  end.

(** The length a value contributes to the column: that of a string, that of
    the string of an object or array, nothing for the rest. *)
Definition textLength (v : any) : nat :=
  match v with
  | JStr s => String.length s
  | JArr _ | JObj _ => String.length (ToString v)
  | _ => 0
  end.

Definition maxTextLength (values : list any) : nat :=
  list_max (map textLength values).

Definition mem (key : string) (names : list string) : bool :=
  existsb (fun k => k =? key) names.

(** A sequence of names with every occurrence but the first removed. *)
Fixpoint firstSeen (names : list string) : list string :=
  match names with
  | [] => []
  | n :: rest => n :: filter (fun m => negb (m =? n)) (firstSeen rest)
  end.

(** The column names of a record set in first-seen order: the keys of the
    records, record after record, without the repeats. *)
Definition firstSeenColumns (data : list record) : list string :=
  firstSeen (List.concat (map keys data)).

Definition unordered : list record :=
  [ [("b", JNum (NInt 1)); ("a", JNum (NInt 2))];
    [("c", JNum (NInt 3)); ("a", JNum (NInt 4))] ].

Definition containsChar (s : string) (c : ascii) : Prop :=
  In c (list_ascii_of_string s).

Definition beginsWith (s : string) (c : ascii) : Prop :=
  exists rest, s = String c rest.

(** The condition under which the specification quotes a CSV field. *)
Definition mustQuote (s : string) : Prop :=
  containsChar s ","%char \/ containsChar s DQUOTE
  \/ containsChar s LF \/ containsChar s CR
  \/ beginsWith s "="%char \/ beginsWith s "+"%char
  \/ beginsWith s "-"%char \/ beginsWith s "@"%char.

(** A text with every occurrence of [c] written twice and nothing else
    changed. *)
Definition doubled (c : ascii) (s : string) : string :=
  string_of_list_ascii
    (flat_map (fun x => if (x =? c)%char then [c; c] else [x]) (list_ascii_of_string s)).

(** A text between two [q], its own [q] doubled. *)
Definition wrapped (q : ascii) (s : string) : string :=
  str q ++ doubled q s ++ str q.

(** ** Vocabulary of the further properties *)

(** The records an object entry adds to the nested explosions, [count]
    being the number of records its value explodes into: those of an object
    array, those of a nested object that explodes into more than one, none
    otherwise. *)
Definition nestedRows (count : any -> nat) (value : any) : nat :=
  match value with
  | JArr [] => 0
  | JArr ((_ :: _) as elems) => if allPrimitives elems then 0 else count value
  | JObj _ => if (count value <=? 1)%nat then 0 else count value
  | _ => 0
  end.

(** The number of records a value explodes into, read off its shape. *)
Fixpoint recordCount (v : any) : nat :=
  match v with
  | JArr [] => 1
  | JArr ((_ :: _) as items) =>
      if allPrimitives items then 1 else list_sum (map recordCount items)
  | JObj entries =>
      Nat.max 1
        (list_sum
           (map (fun kv =>
                   match snd kv with
                   | JArr [] => 0
                   | JArr ((_ :: _) as elems) =>
                       if allPrimitives elems then 0
                       else list_sum (map recordCount elems)
                   | JObj inner =>
                       if (recordCount (snd kv) <=? 1)%nat then 0
                       else recordCount (snd kv)
                   | _ => 0
                   end) entries))
  | _ => 1
  end.

(** Every record of a list owns the property [k]. *)
Definition allOwn (k : string) (records : list record) : Prop :=
  Forall (fun r => has r k = true) records.

(** The fields an object without arrays flattens to: one per leaf, named by
    the keys on the way joined with underscores, undefined written as null.
    An empty nested object has no leaf and gives no field. *)
Fixpoint leafFields (v : any) (prefix : string) : record :=
  match v with
  | JObj entries =>
      flat_map
        (fun kv =>
           match snd kv with
           | JObj _ => leafFields (snd kv) (fullKeyOf prefix (fst kv))
           | JUndefined | JNull => [(fullKeyOf prefix (fst kv), JNull)]
           | leaf => [(fullKeyOf prefix (fst kv), leaf)]
           end) entries
  | _ => []
  end.

(** The fields of one entry of an object without arrays. *)
Definition leafField (prefix key : string) (value : any) : record :=
  match value with
  | JObj _ => leafFields value (fullKeyOf prefix key)
  | JUndefined | JNull => [(fullKeyOf prefix key, JNull)]
  | leaf => [(fullKeyOf prefix key, leaf)]
  end.

(** [r] holds the fields of [fields] over those of [base]. *)
Definition fieldsOver (r base fields : record) : Prop :=
  forall k,
    has r k = has base k || has fields k
    /\ get r k = if has fields k then get fields k else get base k.

(** What the induction carries for an object without arrays. *)
Definition singleRecordOf (v : any) : Prop :=
  forall entries, v = JObj entries -> arrayFree v = true ->
  forall prefix parentContext sourcePath arrayLevel,
    (forall k, has parentContext k = true -> has (leafFields v prefix) k = false) ->
    NoDup (keys (leafFields v prefix)) ->
    exists r,
      explodeObject v prefix parentContext sourcePath arrayLevel = [r]
      /\ fieldsOver r parentContext (leafFields v prefix).

(** Reading back a text whose [c] were doubled: two [c] in a row stand for
    one. *)
Fixpoint undouble (c : ascii) (s : string) : string :=
  match s with
  | EmptyString => EmptyString
  | String a rest =>
      match rest with
      | EmptyString => String a EmptyString
      | String b rest' =>
          if (a =? c)%char && (b =? c)%char
          then String c (undouble c rest')
          else String a (undouble c rest)
      end
  end.

Fixpoint dropLast (s : string) : string :=
  match s with
  | EmptyString => EmptyString
  | String a rest =>
      match rest with
      | EmptyString => EmptyString
      | String _ _ => String a (dropLast rest)
      end
  end.

(** Reading back a text written between two [q] with its own [q] doubled;
    nothing for a text that does not open with [q]. *)
Definition unwrap (q : ascii) (s : string) : option string :=
  match s with
  | String a rest => if (a =? q)%char then Some (undouble q (dropLast rest)) else None
  | EmptyString => None
  end.

(** Reading back a CSV field: a field that opens with a double quote is
    unwrapped, any other field is taken as it is. *)
Definition readCSVField (field : string) : string :=
  match unwrap DQUOTE field with
  | Some s => s
  | None => field
  end.

Definition allChars (f : ascii -> bool) (s : string) : bool :=
  forallb f (list_ascii_of_string s).

(** The values of a column: what every record holds under the name. *)
Definition columnValues (data : list record) (col : string) : list any :=
  map (fun record => get record col) data.

(** One column line of CREATE TABLE. *)
Definition columnLine (data : list record) (col comma : string) : string :=
  "  " ++ escapeIdentifier col ++ " " ++ inferSQLType col (columnValues data col) ++ comma.

(** The five column types. *)
Definition sqlTypes : list string :=
  ["BOOLEAN"; "BIGINT"; "DOUBLE PRECISION"; "VARCHAR(255)"; "TEXT"].

(** A reader of CSV text: a comma ends a field and a line feed ends a row,
    except between double quotes, where two double quotes in a row stand for
    one.  [quoted] tells whether the reader is between quotes, [field] is the
    field read so far and [row] the fields of the row read so far. *)
Fixpoint parseCSV (s : string) (quoted : bool) (field : string) (row : list string)
    : list (list string) :=
  match s with
  | EmptyString => [(row ++ [field])%list]
  | String a rest =>
      if quoted then
        if (a =? DQUOTE)%char then
          match rest with
          | EmptyString => [(row ++ [field])%list]
          | String b rest' =>
              if (b =? DQUOTE)%char
              then parseCSV rest' true (field ++ str DQUOTE) row
              else parseCSV rest false field row
          end
        else parseCSV rest true (field ++ str a) row
      else if (a =? ",")%char then parseCSV rest false EmptyString (row ++ [field])%list
      else if (a =? LF)%char
      then (row ++ [field])%list :: parseCSV rest false EmptyString []
      else if (a =? DQUOTE)%char then parseCSV rest true field row
      else parseCSV rest false (field ++ str a) row
  end.

Definition readCSV (text : string) : list (list string) :=
  parseCSV text false EmptyString [].

(** The text a reader finds in the field of a value: nothing for null and
    undefined, the string form for the rest. *)
Definition fieldText (value : any) : string :=
  if isNullish value then EmptyString else stringForm value.

(** The text after a field: the end, a comma or a line feed. *)
Definition afterField (tail : string) : Prop :=
  tail = EmptyString
  \/ exists c rest, tail = String c rest /\ (c = ","%char \/ c = LF).

(** ** [storage.ts]: the pending conversions of [MemStorage] *)

Module Storage.

(** A row of [pending_conversions]; [tableName] is nullable and [createdAt]
    is the text of the date. *)
Record PendingConversion : Type := {
  sessionId : string;
  jsonInput : string;
  outputFormat : string;
  tableName : option string;
  createdAt : string
}.

(** What [savePendingConversion] receives: the row without [createdAt]. *)
Record InsertPendingConversion : Type := {
  insertSessionId : string;
  insertJsonInput : string;
  insertOutputFormat : string;
  insertTableName : option string
}.

(** [pendingConversions]: a [Map<string, PendingConversion>], its entries in
    insertion order. *)
Definition MemStorage : Type := list (string * PendingConversion).

Fixpoint Map_get (m : MemStorage) (key : string) : option PendingConversion :=
  match m with
  | [] => None
  | (k, v) :: m' => if k =? key then Some v else Map_get m' key
  end.

(** [m.set(key, value)]: the value of an existing key is replaced where it
    is, a new key goes last. *)
Fixpoint Map_set (m : MemStorage) (key : string) (value : PendingConversion)
    : MemStorage :=
  match m with
  | [] => [(key, value)]
  | (k, v) :: m' =>
      if k =? key then (k, value) :: m' else (k, v) :: Map_set m' key value
  end.

Fixpoint Map_delete (m : MemStorage) (key : string) : MemStorage :=
  match m with
  | [] => []
  | (k, v) :: m' => if k =? key then m' else (k, v) :: Map_delete m' key
  end.

(** [savePendingConversion(data)]; [now] is [new Date()].  The new state and
    the row that is returned. *)
Definition savePendingConversion (now : string) (m : MemStorage)
    (data : InsertPendingConversion) : MemStorage * PendingConversion :=
  let pending :=
    {| sessionId := insertSessionId data;
       jsonInput := insertJsonInput data;
       outputFormat := insertOutputFormat data;
       tableName := insertTableName data;
       createdAt := now |} in
  (Map_set m (insertSessionId data) pending, pending).

Definition getPendingConversion (m : MemStorage) (sessionId : string)
    : option PendingConversion :=
  Map_get m sessionId.

Definition deletePendingConversion (m : MemStorage) (sessionId : string) : MemStorage :=
  Map_delete m sessionId.

(** Every key of the map is there once, as in a [Map]. *)
Definition wellFormed (m : MemStorage) : Prop := NoDup (map fst m).

End Storage.

(** ** [routes.ts]: the conversion and success routes *)

Module Routes.

(** [s.split(c)] for a one-character separator. *)
Fixpoint splitOn (c : ascii) (s : string) (current : string) : list string :=
  match s with
  | EmptyString => [current]
  | String a rest =>
      if (a =? c)%char then current :: splitOn c rest EmptyString
      else splitOn c rest (current ++ str a)
  end.

Definition split (s : string) (c : ascii) : list string := splitOn c s EmptyString.

(** [jsonInput.split('\n').length] *)
Definition lineCountOf (jsonInput : string) : nat :=
  List.length (split jsonInput LF).

(** The body of a conversion request once its fields have their types. *)
Record ConversionRequest : Type := {
  jsonInput : string;
  outputFormat : string;
  tableName : option string;
  sessionId : option string
}.

Record ConversionResult : Type := {
  output : string;
  lineCount : nat;
  nestingLevel : nat;
  requiresPayment : bool
}.

Inductive Body : Type :=
| ResultBody (result : ConversionResult)
| MessageBody (message : string)
| InvalidJSONBody (message error : string)
| ValidationBody    (* message "Validation error"; the list of issues is left out *)
| TextBody (text : string)
| ReceivedBody
| UrlBody (url : option string).

Record Response : Type := { status : nat; body : Body }.

(** What [conversionRequestSchema.parse] accepts of a typed body: a
    [jsonInput] of at least one character and one of the two formats. *)
Definition validRequest (request : ConversionRequest) : bool :=
  negb (jsonInput request =? EmptyString)
  && ((outputFormat request =? "sql") || (outputFormat request =? "csv")).

(** Whether a value that is a string or undefined is truthy. *)
Definition truthy (s : option string) : bool :=
  match s with
  | Some EmptyString | None => false
  | Some _ => true
  end.

(** [a || b || c] *)
Definition firstTruthy (a b c : option string) : option string :=
  if truthy a then a else if truthy b then b else c.

(** [s || other] for a string that may be undefined. *)
Definition orDefault (s : option string) (other : string) : string :=
  match s with
  | Some EmptyString | None => other
  | Some t => t
  end.

(** [sessionId ? paidSessions.has(sessionId) : false] *)
Definition isPaidSession (paidSessions : list string) (sessionId : option string) : bool :=
  match sessionId with
  | Some EmptyString | None => false
  | Some s => mem s paidSessions
  end.

(** [process.env], for the names the routes read. *)
Record Env : Type := {
  STRIPE_SECRET_KEY : option string;
  STRIPE_WEBHOOK_SECRET : option string;
  STRIPE_PRICE_ONE_TIME : option string;
  STRIPE_PRICE_MONTHLY : option string;
  STRIPE_PRICE_ANNUAL : option string
}.

(** What the webhook reads of a Stripe event: [event.type] and
    [event.data.object.id]. *)
Record StripeEvent : Type := { type : string; objectId : option string }.

(** The body of a checkout request: the two fields the schema checks and the
    three the route reads besides. *)
Record CheckoutRequest : Type := {
  priceId : string;
  mode : string;
  checkoutJsonInput : option string;
  checkoutOutputFormat : option string;
  checkoutTableName : option string
}.

(** What [stripe.checkout.sessions.create] is called with, apart from the
    constant quantity and tax setting. *)
Record CheckoutSession : Type := {
  sessionMode : string;
  price : string;
  success_url : string;
  cancel_url : string;
  metadataPendingSessionId : string
}.

(** [STRIPE_PRICE_MAP[priceId]] *)
Definition priceOfTier (env : Env) (priceId : string) : option string :=
  if priceId =? "one-time" then STRIPE_PRICE_ONE_TIME env
  else if priceId =? "monthly" then STRIPE_PRICE_MONTHLY env
  else if priceId =? "annual" then STRIPE_PRICE_ANNUAL env
  else None.

(** [s.toUpperCase()] on the letters a to z. *)
Definition toUpperCase (s : string) : string :=
  mapChars
    (fun c =>
       let n := nat_of_ascii c in
       if ((97 <=? n) && (n <=? 122))%nat then ascii_of_nat (n - 32) else c)
    s.

(** [s.replace(c, by)] with a string pattern: the first occurrence only. *)
Fixpoint replaceFirst (s : string) (c : ascii) (by_ : string) : string :=
  match s with
  | EmptyString => EmptyString
  | String a rest =>
      if (a =? c)%char then by_ ++ rest else String a (replaceFirst rest c by_)
  end.

Definition notConfiguredMessage (priceId : string) : string :=
  "Stripe price ID not configured for tier: " ++ priceId
  ++ ". Please add STRIPE_PRICE_" ++ replaceFirst (toUpperCase priceId) "-" "_"
  ++ " to environment variables.".

Section Handlers.

(** [JSON.parse]: the parsed value, or the message of the [SyntaxError]. *)
Variable JSON_parse : string -> any + string.

(** [generateSQL] or [generateCSV] by the format, as both routes choose. *)
Definition generate (now : string) (format : string) (tableName : string)
    (data : list record) : string :=
  if format =? "sql" then generateSQL now data tableName else generateCSV data.

(** The handler of [POST /api/convert]: [paidSessions] is the set of paid
    session ids, [query] is [req.query.session_id] and [header] is
    [req.headers['x-session-id']]. *)
Definition convert (paidSessions : list string) (now : string)
    (query header : option string) (request : ConversionRequest) : Response :=
  if negb (validRequest request) then {| status := 400; body := ValidationBody |}
  else
    let lineCount := lineCountOf (jsonInput request) in
    match JSON_parse (jsonInput request) with
    | inr message =>
        {| status := 400; body := InvalidJSONBody "Invalid JSON format" message |}
    | inl value =>
        let parsed := parseAndFlattenJSON value in
        let sessionId := firstTruthy query (sessionId request) header in
        let isPaid := isPaidSession paidSessions sessionId in
        if (50 <? lineCount)%nat && negb isPaid then
          {| status := 200;
             body := ResultBody {| output := EmptyString;
                                   lineCount := lineCount;
                                   nestingLevel := maxNestingLevel parsed;
                                   requiresPayment := true |} |}
        else
          let output :=
            generate now (outputFormat request)
              (orDefault (tableName request) "converted_data") (data parsed) in
          {| status := 200;
             body := ResultBody {| output := output;
                                   lineCount := lineCount;
                                   nestingLevel := maxNestingLevel parsed;
                                   requiresPayment := false |} |}
    end.

(** The handler of [GET /api/success]: [pending] is
    [req.query.pending_session].  The new state of the storage and the
    response. *)
Definition success (storage : Storage.MemStorage) (now : string)
    (pending : option string) : Storage.MemStorage * Response :=
  if negb (truthy pending) then
    (storage, {| status := 400; body := MessageBody "Missing pending_session parameter" |})
  else
    let pendingSessionId := orDefault pending EmptyString in
    match Storage.getPendingConversion storage pendingSessionId with
    | None =>
        (storage,
         {| status := 404;
            body := MessageBody "Pending conversion not found. Session may have expired." |})
    | Some pendingData =>
        match JSON_parse (Storage.jsonInput pendingData) with
        | inr message =>
            (storage,
             {| status := 400; body := InvalidJSONBody "Invalid JSON format" message |})
        | inl value =>
            let parsed := parseAndFlattenJSON value in
            let output :=
              generate now (Storage.outputFormat pendingData)
                (orDefault (Storage.tableName pendingData) "converted_data")
                (data parsed) in
            (Storage.deletePendingConversion storage pendingSessionId,
             {| status := 200;
                body := ResultBody
                          {| output := output;
                             lineCount := lineCountOf (Storage.jsonInput pendingData);
                             nestingLevel := maxNestingLevel parsed;
                             requiresPayment := false |} |})
        end
    end.

(** [stripe.webhooks.constructEvent] of a client made with the secret key:
    the verified event, or the message of the error it throws. *)
Variable constructEvent : option string -> string -> string -> string -> StripeEvent + string.

(** The handler of [POST /api/webhook]: [sig] is the [stripe-signature]
    header and [rawBody] the raw body.  The new set of paid sessions and the
    response. *)
Definition webhook (env : Env) (paidSessions : list string) (sig : option string)
    (rawBody : string) : list string * Response :=
  if negb (truthy sig) then
    (paidSessions, {| status := 400; body := TextBody "Missing stripe-signature header" |})
  else if negb (truthy (STRIPE_WEBHOOK_SECRET env)) then
    (paidSessions, {| status := 500; body := TextBody "Webhook secret not configured" |})
  else
    match constructEvent (STRIPE_SECRET_KEY env) rawBody (orDefault sig EmptyString)
            (orDefault (STRIPE_WEBHOOK_SECRET env) EmptyString) with
    | inr message =>
        (paidSessions, {| status := 400; body := TextBody ("Webhook Error: " ++ message) |})
    | inl event =>
        let paidSessions' :=
          if type event =? "checkout.session.completed" then
            if truthy (objectId event)
            then Set_add paidSessions (orDefault (objectId event) EmptyString)
            else paidSessions
          else paidSessions in
        (paidSessions', {| status := 200; body := ReceivedBody |})
    end.

(** [stripe.checkout.sessions.create] of a client made with the secret key:
    the url of the session, or the message of the error it throws. *)
Variable createSession : string -> CheckoutSession -> option string + string.

(** The handler of [POST /api/create-checkout-session]: [uuid] is
    [randomUUID()], [now] is [new Date()] and [origin] is
    [req.headers.origin].  The new state of the storage and the response. *)
Definition createCheckoutSession (env : Env) (uuid now : string)
    (origin : option string) (storage : Storage.MemStorage)
    (request : CheckoutRequest) : Storage.MemStorage * Response :=
  if negb ((mode request =? "payment") || (mode request =? "subscription")) then
    (storage, {| status := 400; body := ValidationBody |})
  else
    let pendingSessionId := uuid in
    let storage' :=
      if truthy (checkoutJsonInput request) && truthy (checkoutOutputFormat request)
      then
        fst (Storage.savePendingConversion now storage
               {| Storage.insertSessionId := pendingSessionId;
                  Storage.insertJsonInput :=
                    orDefault (checkoutJsonInput request) EmptyString;
                  Storage.insertOutputFormat :=
                    orDefault (checkoutOutputFormat request) EmptyString;
                  Storage.insertTableName :=
                    Some (orDefault (checkoutTableName request) "converted_data") |})
      else storage in
    if negb (truthy (STRIPE_SECRET_KEY env)) then
      (storage',
       {| status := 503;
          body := MessageBody
            "Payment processing is not configured. Please add STRIPE_SECRET_KEY to environment variables." |})
    else
      let actualPriceId :=
        if truthy (priceOfTier env (priceId request))
        then orDefault (priceOfTier env (priceId request)) EmptyString
        else priceId request in
      if actualPriceId =? EmptyString then
        (storage',
         {| status := 400; body := MessageBody (notConfiguredMessage (priceId request)) |})
      else
        let base := orDefault origin "http://localhost:10000" in
        let session :=
          {| sessionMode := mode request;
             price := actualPriceId;
             success_url :=
               base ++ "/success?session_id={CHECKOUT_SESSION_ID}&pending_session="
                    ++ pendingSessionId;
             cancel_url := base ++ "?canceled=true";
             metadataPendingSessionId := pendingSessionId |} in
        match createSession (orDefault (STRIPE_SECRET_KEY env) EmptyString) session with
        | inl url => (storage', {| status := 200; body := UrlBody url |})
        | inr message => (storage', {| status := 500; body := MessageBody message |})
        end.

End Handlers.

(** The number of [c] in [s]. *)
Fixpoint occurrences (c : ascii) (s : string) : nat :=
  match s with
  | EmptyString => 0
  | String a rest => (if (a =? c)%char then 1 else 0) + occurrences c rest
  end.

End Routes.

(** The row the checkout route stores for a request. *)
Definition pendingOf (uuid now : string) (request : Routes.CheckoutRequest)
    : Storage.PendingConversion :=
  {| Storage.sessionId := uuid;
     Storage.jsonInput := Routes.orDefault (Routes.checkoutJsonInput request) EmptyString;
     Storage.outputFormat :=
       Routes.orDefault (Routes.checkoutOutputFormat request) EmptyString;
     Storage.tableName :=
       Some (Routes.orDefault (Routes.checkoutTableName request) "converted_data");
     Storage.createdAt := now |}.

(** The price the checkout route asks Stripe for. *)
Definition priceFor (env : Routes.Env) (priceId : string) : string :=
  match Routes.priceOfTier env priceId with
  | Some EmptyString | None => priceId
  | Some configured => configured
  end.

(** * Properties *)

(** ** Records stay flat *)

Section FlatRecords.

Lemma flat_overwrite r k v :
  flatRecord r -> isScalar v = true -> flatRecord (overwrite r k v).
Proof.
  intros Hr Hv. induction Hr as [|[k' v'] r' Hkv Hr' IH]; simpl.
  - constructor.
  - destruct (k' =? k); constructor; auto.
Qed.

Lemma flat_insertIndex r n k v :
  flatRecord r -> isScalar v = true -> flatRecord (insertIndex r n k v).
Proof.
  intros Hr Hv. induction Hr as [|[k' v'] r' Hkv Hr' IH]; simpl.
  - repeat constructor; assumption.
  - destruct (arrayIndex k') as [n'|].
    + destruct (n' <? n)%N; repeat (constructor; auto).
    + repeat (constructor; auto).
Qed.

Lemma flat_set r k v :
  flatRecord r -> isScalar v = true -> flatRecord (set r k v).
Proof.
  intros Hr Hv. unfold set.
  destruct (has r k); [now apply flat_overwrite|].
  destruct (arrayIndex k); [now apply flat_insertIndex|].
  apply Forall_app; split; [assumption|]. repeat constructor; assumption.
Qed.

Lemma flat_spread base r :
  flatRecord base -> flatRecord r -> flatRecord (spread base r).
Proof.
  unfold spread. intros Hb Hr. revert base Hb.
  induction Hr as [|[k v] r' Hkv Hr' IH]; intros base Hb; simpl.
  - assumption.
  - apply IH. now apply flat_set.
Qed.

Lemma flat_mergeMissing base r :
  flatRecord base -> flatRecord r -> flatRecord (mergeMissing base r).
Proof.
  unfold mergeMissing. intros Hb Hr. revert base Hb.
  induction Hr as [|[k v] r' Hkv Hr' IH]; intros base Hb; simpl.
  - assumption.
  - apply IH. destruct (has base k); [assumption|now apply flat_set].
Qed.

Lemma explodeItems_flat prefix sourcePath arrayLevel parentContext items :
  Forall explodesFlat items -> flatRecord parentContext ->
  forall idx,
    (items <> [] ->
     explodeItems explodeObject prefix sourcePath arrayLevel parentContext items idx <> [])
    /\ Forall flatRecord
         (explodeItems explodeObject prefix sourcePath arrayLevel parentContext items idx).
Proof.
  intros Hitems Hctx.
  induction Hitems as [|item rest Hitem Hrest IH]; intros idx; simpl.
  - split; [congruence|constructor].
  - destruct (Hitem prefix
                (set parentContext (indexKey prefix arrayLevel) (JNum (NInt (Z.of_nat idx))))
                (orElse sourcePath (orElse prefix "root")) (arrayLevel + 1))
      as [Hne Hflat]; [now apply flat_set|].
    destruct (IH (S idx)) as [_ Hflat'].
    split.
    + intros _ Happ. apply app_eq_nil in Happ. destruct Happ as [Happ _]. now apply Hne.
    + apply Forall_app; split; assumption.
Qed.

Lemma explodeEntries_flat prefix sourcePath arrayLevel entries :
  Forall (fun kv => explodesFlat (snd kv)) entries ->
  forall baseContext nestedExplosions,
    flatRecord baseContext -> Forall flatRecord nestedExplosions ->
    flatRecord (fst (explodeEntries explodeObject prefix sourcePath arrayLevel
                       entries baseContext nestedExplosions))
    /\ Forall flatRecord
         (snd (explodeEntries explodeObject prefix sourcePath arrayLevel
                 entries baseContext nestedExplosions)).
Proof.
  induction 1 as [|[key value] rest Hvalue Hrest IH]; intros base nested Hb Hn.
  - simpl. split; assumption.
  - simpl in Hvalue. cbn [explodeEntries].
    destruct value as [| |b|n|s|elems|inner].
    + apply IH; [now apply flat_set|assumption].
    + apply IH; [now apply flat_set|assumption].
    + apply IH; [now apply flat_set|assumption].
    + apply IH; [now apply flat_set|assumption].
    + apply IH; [now apply flat_set|assumption].
    + destruct elems as [|e elems'].
      * apply IH; [now apply flat_set|assumption].
      * destruct (allPrimitives (e :: elems')).
        -- apply IH; [now apply flat_set|assumption].
        -- apply IH; [assumption|].
           apply Forall_app; split; [assumption|].
           now apply Hvalue.
    + destruct (Hvalue (fullKeyOf prefix key) base sourcePath arrayLevel Hb)
        as [_ Hflat].
      destruct (explodeObject (JObj inner) (fullKeyOf prefix key) base sourcePath arrayLevel)
        as [|r1 [|r2 more]].
      * now apply IH.
      * apply IH; [|assumption].
        apply flat_mergeMissing; [assumption|]. now inversion Hflat.
      * apply IH; [assumption|]. apply Forall_app; split; assumption.
Qed.

Lemma explodeObject_flat : forall obj, explodesFlat obj.
Proof.
  induction obj as [| |b|n|s|items IH|entries IH] using any_ind;
    intros prefix ctx sourcePath arrayLevel Hctx.
  - simpl. split; [discriminate|]. repeat constructor. now apply flat_set.
  - simpl. split; [discriminate|]. repeat constructor. now apply flat_set.
  - simpl. split; [discriminate|]. repeat constructor. now apply flat_set.
  - simpl. split; [discriminate|]. repeat constructor. now apply flat_set.
  - simpl. split; [discriminate|]. repeat constructor. now apply flat_set.
  - cbn [explodeObject]. destruct items as [|item items'].
    + split; [discriminate|]. repeat constructor. now apply flat_set.
    + destruct (allPrimitives (item :: items')).
      * split; [discriminate|]. repeat constructor. now apply flat_set.
      * destruct (explodeItems_flat prefix sourcePath arrayLevel ctx (item :: items')
                    IH Hctx 0) as [Hne Hflat].
        destruct (explodeItems explodeObject prefix sourcePath arrayLevel ctx
                    (item :: items') 0) as [|r rs].
        -- exfalso. apply Hne; [discriminate|reflexivity].
        -- split; [discriminate|assumption].
  - cbn [explodeObject].
    destruct (explodeEntries_flat prefix sourcePath arrayLevel entries IH ctx []
                Hctx (Forall_nil _)) as [Hb Hn].
    destruct (explodeEntries explodeObject prefix sourcePath arrayLevel entries ctx [])
      as [base nested]. simpl in Hb, Hn.
    destruct nested as [|r rs].
    + split; [discriminate|]. repeat constructor. assumption.
    + split; [discriminate|].
      apply Forall_map. eapply Forall_impl; [|exact Hn].
      intros rec Hrec. now apply flat_spread.
Qed.

End FlatRecords.

(** C3. Flattening is total and its records are flat: for every value, null
    itself and the empty containers included, [flatten] returns at least one
    record, and every field of every returned record holds a scalar (null, a
    boolean, a number or a string), never an object or an array. *)
Theorem flatten_total_flat (value : any) :
  (1 <= List.length (fst (flatten value)))%nat
  /\ Forall (Forall (fun field => isScalar (snd field) = true)) (fst (flatten value)).
Proof.
  destruct (explodeObject_flat value EmptyString [] EmptyString 0) as [Hne Hflat].
  - constructor.
  - unfold flatten, parseAndFlattenJSON. simpl. split.
    + destruct (explodeObject value EmptyString [] EmptyString 0); [congruence|simpl; lia].
    + exact Hflat.
Qed.

(** ** Sibling arrays add up *)

Section SiblingArrays.

Lemma explodeEntries_arrayFree prefix sourcePath arrayLevel entries :
  Forall (fun kv =>
            arrayFree (snd kv) = true ->
            forall p c s l, List.length (explodeObject (snd kv) p c s l) = 1%nat)
         entries ->
  forallb (fun kv => arrayFree (snd kv)) entries = true ->
  forall baseContext nestedExplosions,
    snd (explodeEntries explodeObject prefix sourcePath arrayLevel entries
           baseContext nestedExplosions) = nestedExplosions.
Proof.
  induction 1 as [|[key value] rest Hvalue Hrest IH]; intros Hfree base nested.
  - reflexivity.
  - simpl in Hfree. apply andb_true_iff in Hfree. destruct Hfree as [Hv Hfree].
    simpl in Hvalue. cbn [explodeEntries].
    destruct value as [| |b|n|s|elems|inner]; try (now apply IH).
    + discriminate Hv.
    + specialize (Hvalue Hv (fullKeyOf prefix key) base sourcePath arrayLevel).
      destruct (explodeObject (JObj inner) (fullKeyOf prefix key) base sourcePath arrayLevel)
        as [|r1 [|r2 more]]; try discriminate Hvalue.
      now apply IH.
Qed.

Lemma explodeObject_arrayFree : forall obj,
  arrayFree obj = true ->
  forall prefix parentContext sourcePath arrayLevel,
    List.length (explodeObject obj prefix parentContext sourcePath arrayLevel) = 1%nat.
Proof.
  induction obj as [| |b|n|s|items IH|entries IH] using any_ind;
    intros Hfree prefix ctx sourcePath arrayLevel; try reflexivity.
  - discriminate Hfree.
  - cbn [explodeObject].
    pose proof (explodeEntries_arrayFree prefix sourcePath arrayLevel entries IH Hfree ctx [])
      as Hsnd.
    destruct (explodeEntries explodeObject prefix sourcePath arrayLevel entries ctx [])
      as [base nested]. simpl in Hsnd. subst nested. reflexivity.
Qed.

Lemma explodeItems_plainObjects prefix sourcePath arrayLevel parentContext items :
  forallb plainObject items = true ->
  forall idx,
    List.length (explodeItems explodeObject prefix sourcePath arrayLevel
                   parentContext items idx) = List.length items.
Proof.
  induction items as [|item rest IH]; intros Hplain idx.
  - reflexivity.
  - simpl in Hplain. apply andb_true_iff in Hplain. destruct Hplain as [Hitem Hrest].
    cbn [explodeItems]. rewrite length_app, IH by assumption.
    rewrite explodeObject_arrayFree; [reflexivity|].
    destruct item; try discriminate Hitem. exact Hitem.
Qed.

Lemma plainObjects_not_allPrimitives item items :
  forallb plainObject (item :: items) = true -> allPrimitives (item :: items) = false.
Proof.
  simpl. destruct item; simpl; try discriminate. reflexivity.
Qed.

(** An array of plain objects explodes into one record per element. *)
Lemma explodeObject_objectArray items prefix parentContext sourcePath arrayLevel :
  forallb plainObject items = true -> items <> [] ->
  List.length (explodeObject (JArr items) prefix parentContext sourcePath arrayLevel)
  = List.length items.
Proof.
  intros Hplain Hne. destruct items as [|item rest]; [congruence|].
  cbn [explodeObject]. rewrite (plainObjects_not_allPrimitives _ _ Hplain).
  pose proof (explodeItems_plainObjects prefix sourcePath arrayLevel parentContext
                (item :: rest) Hplain 0) as Hlen.
  destruct (explodeItems explodeObject prefix sourcePath arrayLevel parentContext
              (item :: rest) 0); [discriminate Hlen|exact Hlen].
Qed.

Lemma explodeEntries_rows prefix sourcePath arrayLevel entries :
  forallb entryShape entries = true ->
  forall baseContext nestedExplosions,
    List.length (snd (explodeEntries explodeObject prefix sourcePath arrayLevel entries
                        baseContext nestedExplosions))
    = (List.length nestedExplosions + list_sum (map entryRows entries))%nat.
Proof.
  induction entries as [|[key value] rest IH]; intros Hshape base nested.
  - simpl. lia.
  - simpl in Hshape. apply andb_true_iff in Hshape. destruct Hshape as [Hv Hrest].
    unfold entryShape in Hv. simpl in Hv.
    cbn [explodeEntries map].
    change (list_sum (entryRows (key, value) :: map entryRows rest))
      with (entryRows (key, value) + list_sum (map entryRows rest))%nat.
    unfold entryRows at 1. simpl snd.
    destruct value as [| |b|n|s|elems|inner];
      try (rewrite IH by assumption; simpl; lia).
    + destruct elems as [|e elems'].
      * rewrite IH by assumption. simpl. lia.
      * rewrite (plainObjects_not_allPrimitives _ _ Hv).
        rewrite IH by assumption. rewrite length_app.
        rewrite explodeObject_objectArray by (assumption || discriminate). lia.
    + pose proof (explodeObject_arrayFree (JObj inner) Hv (fullKeyOf prefix key) base
                    sourcePath arrayLevel) as Hone.
      destruct (explodeObject (JObj inner) (fullKeyOf prefix key) base sourcePath arrayLevel)
        as [|r1 [|r2 more]]; try discriminate Hone.
      rewrite IH by assumption. lia.
Qed.

(** The number of records of an object whose array fields all hold plain
    objects: the sum of the array lengths, or one when that sum is zero. *)
Lemma flatten_object_rows entries :
  forallb entryShape entries = true ->
  List.length (fst (flatten (JObj entries)))
  = Nat.max 1 (list_sum (map entryRows entries)).
Proof.
  intros Hshape. unfold flatten, parseAndFlattenJSON. cbn [data fst explodeObject].
  pose proof (explodeEntries_rows EmptyString EmptyString 0 entries Hshape [] []) as Hrows.
  destruct (explodeEntries explodeObject EmptyString EmptyString 0 entries [] [])
    as [base nested]. simpl in Hrows.
  destruct nested as [|r rs]; simpl in *.
  - rewrite <- Hrows. reflexivity.
  - rewrite length_map, <- Hrows. lia.
Qed.

Lemma arrayFree_entryShape entries :
  forallb (fun kv => arrayFree (snd kv)) entries = true ->
  forallb entryShape entries = true /\ list_sum (map entryRows entries) = 0%nat.
Proof.
  induction entries as [|[key value] rest IH]; intros Hfree; [split; reflexivity|].
  simpl in Hfree. apply andb_true_iff in Hfree. destruct Hfree as [Hv Hrest].
  destruct (IH Hrest) as [Hshape Hsum]. simpl in Hv.
  split.
  - simpl. rewrite Hshape, andb_true_r. unfold entryShape. simpl.
    destruct value; try assumption; discriminate Hv.
  - simpl. rewrite Hsum. unfold entryRows. simpl.
    destruct value; try reflexivity; discriminate Hv.
Qed.

End SiblingArrays.

Ltac same_fields :=
  intros k; cbn [has get];
  repeat match goal with
         | |- context [String.eqb ?s k] =>
             destruct (String.eqb_spec s k); [subst k; simpl|]
         end;
  split; reflexivity.




(** ** Nesting depth *)

Section Depth.

Lemma fold_max_height {A : Type} (level : A -> nat -> nat) (h : A -> nat) (d : nat)
    (l : list A) :
  Forall (fun x => level x (d + 1) = d + 1 + h x)%nat l ->
  forall start, (d <= start)%nat ->
    fold_left (fun maxLevel x => Nat.max maxLevel (level x (d + 1))) l start
    = Nat.max start (d + list_max (map (fun x => S (h x)) l)).
Proof.
  induction 1 as [|x l' Hx Hl IH]; intros start Hle; cbn [fold_left map].
  - simpl. lia.
  - change (list_max (S (h x) :: map (fun x => S (h x)) l'))
      with (Nat.max (S (h x)) (list_max (map (fun x => S (h x)) l'))).
    rewrite IH by lia. rewrite Hx. lia.
Qed.

Lemma getNestingLevel_height : forall obj currentLevel,
  getNestingLevel obj currentLevel = (currentLevel + height obj)%nat.
Proof.
  induction obj as [| |b|n|s|items IH|entries IH] using any_ind;
    intros d; try (simpl; lia).
  - cbn [getNestingLevel height].
    rewrite (fold_max_height getNestingLevel height d items).
    + lia.
    + eapply Forall_impl; [|exact IH]. intros x Hx. apply Hx.
    + lia.
  - cbn [getNestingLevel height].
    rewrite (fold_max_height (fun kv => getNestingLevel (snd kv))
               (fun kv => height (snd kv)) d entries).
    + lia.
    + eapply Forall_impl; [|exact IH]. intros x Hx. apply Hx.
    + lia.
Qed.

End Depth.

(** C4 (as amended). The document [{"a":{"b":{"c":1}}}] has depth 3 and
    flattens to the single record [{a_b_c: 1}].  The depth starts at 0 at the
    root and every child value of a container, a primitive or null as much as
    a container, is one level below its parent; the result is the greatest
    level met, that is the height of the value. *)
Theorem nesting_depth_rule :
  flatten abc = ([ [("a_b_c", JNum (NInt 1))] ], 3%nat)
  /\ (forall value, snd (flatten value) = height value)
  /\ (forall value level,
        getNestingLevel value level
        = fold_left (fun maxLevel child =>
                       Nat.max maxLevel (getNestingLevel child (level + 1)))
                    (children value) level)
  /\ (forall key level,
        getNestingLevel (JObj [(key, JNull)]) level = (level + 1)%nat
        /\ forall n, getNestingLevel (JObj [(key, JNum n)]) level = (level + 1)%nat).
Proof.
  split; [reflexivity|]. split; [|split].
  - intros value. unfold flatten, parseAndFlattenJSON. simpl.
    now rewrite getNestingLevel_height.
  - intros [] level; try reflexivity.
    simpl. generalize level at 2 4.
    induction entries as [|kv rest IH]; intros start.
    + reflexivity.
    + simpl. apply IH.
  - intros key level. split; [|intros n]; simpl; lia.
Qed.

(** On [{"a":{"b":{"c":1}}}] the rule as worded stops at 2, the depth of the
    innermost object, where the code answers 3. *)
Lemma nesting_depth_rule_as_worded :
  ruleDepth abc = 2%nat /\ snd (flatten abc) = 3%nat
  /\ snd (flatten abc) <> ruleDepth abc.
Proof.
  repeat split; try reflexivity. vm_compute. discriminate.
Qed.

(** ** Arrays of primitives *)

Section PrimitiveArrays.

Lemma joinPrimitives_joinedText items : joinPrimitives items = joinedText items.
Proof.
  unfold joinPrimitives, joinedText, Array_join, nonNull. f_equal.
  induction items as [|x items IH]; [reflexivity|].
  simpl. destruct x; simpl; try exact IH; f_equal; exact IH.
Qed.

Lemma set_empty k v : set [] k v = [(k, v)].
Proof. unfold set. simpl. destruct (arrayIndex k); reflexivity. Qed.

End PrimitiveArrays.



(** C10. An empty array at the root flattens to one record whose only field
    has the empty string for its name and holds null; the name [value] that a
    null or a primitive at the root receives is not used for it. *)
Theorem empty_root_array :
  fst (flatten (JArr [])) = [ [(EmptyString, JNull)] ]
  /\ fst (flatten JNull) = [ [("value", JNull)] ]
  /\ (forall b, fst (flatten (JBool b)) = [ [("value", JBool b)] ])
  /\ (forall n, fst (flatten (JNum n)) = [ [("value", JNum n)] ])
  /\ (forall s, fst (flatten (JStr s)) = [ [("value", JStr s)] ]).
Proof.
  repeat split.
Qed.

(** ** SQL type inference *)

Section TypeInference.

Lemma fold_observe values : forall p,
  fold_left observe values p
  = {| hasNull := hasNull p || existsb isNullish values;
       hasNumber := hasNumber p || existsb isNumberValue values;
       hasBoolean := hasBoolean p || existsb isBooleanValue values;
       hasString := hasString p || existsb isTextValue values;
       allIntegers := allIntegers p && forallb finiteIntegerIfNumber values;
       maxLength := Nat.max (maxLength p) (maxTextLength values) |}.
Proof.
  induction values as [|value rest IH]; intros [pn pm pb ps pa pl].
  - cbn. now rewrite !orb_false_r, andb_true_r, Nat.max_0_r.
  - cbn [fold_left]. rewrite IH. unfold maxTextLength. cbn [map existsb forallb].
    change (list_max (textLength value :: map textLength rest))
      with (Nat.max (textLength value) (list_max (map textLength rest))).
    destruct value as [| |b|n|s|items|entries];
      cbn [observe hasNull hasNumber hasBoolean hasString allIntegers maxLength
           isNullish isNumberValue isBooleanValue isTextValue finiteIntegerIfNumber
           textLength];
      f_equal;
      rewrite ?orb_true_r, ?orb_false_r, ?orb_true_l, ?orb_false_l, ?andb_true_l;
      try reflexivity; try lia.
    destruct (Number_isInteger n), (Number_isFinite n); cbn;
      now rewrite ?andb_false_r, ?andb_false_l.
Qed.

Lemma profileOf_spec values :
  profileOf values
  = {| hasNull := existsb isNullish values;
       hasNumber := existsb isNumberValue values;
       hasBoolean := existsb isBooleanValue values;
       hasString := existsb isTextValue values;
       allIntegers := forallb finiteIntegerIfNumber values;
       maxLength := maxTextLength values |}.
Proof. unfold profileOf. now rewrite fold_observe. Qed.

End TypeInference.

(** C2 (as amended). The type of a column follows the priority boolean,
    numeric, string.  A boolean seen and no number and no string seen:
    BOOLEAN.  A number seen and no string seen: BIGINT when every number is a
    finite integer, DOUBLE PRECISION otherwise.  Otherwise a string type:
    VARCHAR(255) when the longest string seen has between 1 and 255
    characters, TEXT when it has more than 255 or when no character was seen
    at all, which is the case of a column without any non-null value and also
    of a column whose strings are all empty. *)
Theorem inferSQLType_priority (columnName : string) (values : list any) :
  inferSQLType columnName values
  = (if existsb isBooleanValue values
        && negb (existsb isNumberValue values) && negb (existsb isTextValue values)
     then "BOOLEAN"
     else if existsb isNumberValue values && negb (existsb isTextValue values)
     then (if forallb finiteIntegerIfNumber values then "BIGINT" else "DOUBLE PRECISION")
     else if (1 <=? maxTextLength values)%nat && (maxTextLength values <=? 255)%nat
     then "VARCHAR(255)"
     else "TEXT")
  /\ inferSQLType columnName [JNum (NInt 1); JNum (NInt 2); JNum (NInt 3)] = "BIGINT"
  /\ inferSQLType columnName [JNum (NInt 1); JNum (NFrac "2.5")] = "DOUBLE PRECISION"
  /\ inferSQLType columnName [JBool true; JBool false] = "BOOLEAN"
  /\ inferSQLType columnName [JStr "a"; JStr "b"] = "VARCHAR(255)"
  /\ inferSQLType columnName [JNull; JUndefined] = "TEXT"
  /\ inferSQLType columnName [] = "TEXT".
Proof.
  split; [|repeat split].
  unfold inferSQLType. rewrite profileOf_spec.
  cbn [hasBoolean hasNumber hasString allIntegers maxLength].
  destruct (existsb isBooleanValue values && negb (existsb isNumberValue values)
            && negb (existsb isTextValue values)); [reflexivity|].
  destruct (existsb isNumberValue values && negb (existsb isTextValue values));
    [reflexivity|].
  destruct (maxTextLength values) as [|m]; [reflexivity|].
  cbn [Nat.eqb Nat.leb andb]. reflexivity.
Qed.

(** A column holding one empty string has a non-null value whose length, 0,
    is at most 255, and its type is TEXT. *)
Lemma empty_string_column_is_text :
  let values := [JStr EmptyString] in
  existsb isTextValue values = true
  /\ (maxTextLength values <= 255)%nat
  /\ inferSQLType "c" values = "TEXT"
  /\ inferSQLType "c" values <> "VARCHAR(255)".
Proof.
  cbn. repeat split; [lia|discriminate].
Qed.

(** ** Column order *)

Section ColumnOrder.

Lemma filter_filter {A : Type} (f g : A -> bool) (l : list A) :
  filter f (filter g l) = filter (fun x => g x && f x) l.
Proof.
  induction l as [|x l IH]; [reflexivity|].
  simpl. destruct (g x); simpl; [destruct (f x)|]; now rewrite IH.
Qed.

Lemma mem_In key names : mem key names = true <-> In key names.
Proof.
  unfold mem. rewrite existsb_exists. split.
  - intros [k [Hin Heq]]. apply String.eqb_eq in Heq. now subst.
  - intros Hin. exists key. split; [assumption|apply String.eqb_refl].
Qed.

Lemma firstSeen_In key names : In key (firstSeen names) <-> In key names.
Proof.
  induction names as [|n rest IH]; [reflexivity|].
  simpl. rewrite filter_In, IH, negb_true_iff, String.eqb_neq.
  destruct (String.eqb_spec n key) as [->|Hneq]; [tauto|].
  split; [tauto|]. intros [H|H]; [tauto|]. right. split; [assumption|congruence].
Qed.

Lemma firstSeen_NoDup names : NoDup (firstSeen names).
Proof.
  induction names as [|n rest IH]; simpl; constructor.
  - rewrite filter_In, String.eqb_refl. intros [_ H]. discriminate H.
  - now apply NoDup_filter.
Qed.

Lemma firstSeen_app first later :
  firstSeen (first ++ later)
  = (firstSeen first ++ filter (fun k => negb (mem k first)) (firstSeen later))%list.
Proof.
  induction first as [|n first IH].
  - simpl. symmetry. apply filter_true.
  - simpl. rewrite IH, filter_app, filter_filter. do 2 f_equal.
    apply filter_ext. intros k. unfold mem. simpl.
    rewrite negb_orb, (String.eqb_sym n k). apply andb_comm.
Qed.

Lemma fold_Set_add names : forall seen,
  fold_left Set_add names seen
  = (seen ++ filter (fun k => negb (mem k seen)) (firstSeen names))%list.
Proof.
  induction names as [|n rest IH]; intros seen.
  - simpl. now rewrite app_nil_r.
  - cbn [fold_left firstSeen filter]. unfold Set_add at 2. fold (mem n seen).
    destruct (mem n seen) eqn:Hmem; cbn [negb]; rewrite IH.
    + f_equal. rewrite filter_filter. apply filter_ext_in. intros k _.
      destruct (String.eqb_spec k n) as [->|Hneq]; simpl; [now rewrite Hmem|reflexivity].
    + rewrite <- app_assoc. simpl. do 2 f_equal.
      rewrite filter_filter. apply filter_ext. intros k.
      unfold mem. rewrite existsb_app. simpl.
      rewrite orb_false_r, negb_orb, (String.eqb_sym n k). apply andb_comm.
Qed.

Lemma fold_keys {S : Type} (step : S -> string -> S) (data : list record) : forall start,
  fold_left (fun acc record => fold_left step (keys record) acc) data start
  = fold_left step (List.concat (map keys data)) start.
Proof.
  induction data as [|r rest IH]; intros start; [reflexivity|].
  simpl. now rewrite fold_left_app, IH.
Qed.

Lemma columnsOf_firstSeen data : columnsOf data = firstSeenColumns data.
Proof.
  unfold columnsOf, firstSeenColumns. rewrite fold_keys, fold_Set_add. simpl.
  apply filter_true.
Qed.

Lemma Map_has_keys columnMap key :
  Map_has columnMap key = mem key (map fst columnMap).
Proof.
  unfold Map_has, mem. induction columnMap as [|e m IH]; [reflexivity|].
  simpl. now rewrite IH.
Qed.

Lemma noteKey_Set_add names : forall columnMap,
  map fst (fold_left noteKey names columnMap)
  = fold_left Set_add names (map fst columnMap).
Proof.
  induction names as [|n rest IH]; intros columnMap; [reflexivity|].
  simpl. rewrite IH. f_equal. unfold noteKey, Set_add.
  rewrite Map_has_keys. fold (mem n (map fst columnMap)).
  destruct (mem n (map fst columnMap)); [reflexivity|].
  now rewrite map_app.
Qed.

Lemma headersOf_firstSeen data : headersOf data = firstSeenColumns data.
Proof.
  unfold headersOf, collectColumnMap. rewrite fold_keys, noteKey_Set_add. simpl.
  rewrite <- fold_keys. apply columnsOf_firstSeen.
Qed.

End ColumnOrder.

Lemma firstSeen_NoDup_id names : NoDup names -> firstSeen names = names.
Proof.
  induction 1 as [|n rest Hnotin Hnodup IH]; [reflexivity|].
  simpl. rewrite IH. f_equal.
  rewrite <- (filter_true rest) at 2. apply filter_ext_in. intros k Hin.
  destruct (String.eqb_spec k n) as [->|Hneq]; [contradiction|reflexivity].
Qed.


(** C8. On an empty record set [generateSQL] returns its comment placeholder
    and [generateCSV] the empty text; both are plain results, no error. *)
Theorem empty_record_set :
  (forall now tableName, generateSQL now [] tableName = "-- No data to convert")
  /\ generateCSV [] = EmptyString.
Proof.
  split; reflexivity.
Qed.

(** ** Field and literal escaping *)

Section Escaping.

Lemma includes_In s c : includes s c = true <-> containsChar s c.
Proof.
  unfold containsChar. induction s as [|c' s IH]; simpl.
  - split; [discriminate|contradiction].
  - rewrite orb_true_iff, IH, Ascii.eqb_eq. tauto.
Qed.

Lemma startsWith_beginsWith s :
  startsWithFormulaChar s = true
  <-> beginsWith s "="%char \/ beginsWith s "+"%char
      \/ beginsWith s "-"%char \/ beginsWith s "@"%char.
Proof.
  unfold beginsWith. destruct s as [|c s]; simpl.
  - split; [discriminate|]. intros [[r H]|[[r H]|[[r H]|[r H]]]]; discriminate H.
  - rewrite !orb_true_iff, !Ascii.eqb_eq. split.
    + intros [[[->| ->]| ->]| ->]; [left|right; left|right; right; left|right; right; right];
        now exists s.
    + intros [[r H]|[[r H]|[[r H]|[r H]]]]; injection H as -> _; tauto.
Qed.

Lemma needsQuoting_mustQuote s : needsQuoting s = true <-> mustQuote s.
Proof.
  unfold needsQuoting, mustQuote.
  rewrite !orb_true_iff, !includes_In, startsWith_beginsWith. tauto.
Qed.

Lemma replaceAll_doubled s c : replaceAll s c (String c (str c)) = doubled c s.
Proof.
  unfold doubled. induction s as [|c' s IH]; [reflexivity|].
  simpl. rewrite IH. destruct (c' =? c)%char eqn:E; [|reflexivity].
  apply Ascii.eqb_eq in E. subst c'. reflexivity.
Qed.

Lemma length_append a b : String.length (a ++ b) = (String.length a + String.length b)%nat.
Proof. induction a as [|c a IH]; simpl; [reflexivity|now rewrite IH]. Qed.

Lemma length_replaceAll s c by_ :
  (String.length s <= String.length (replaceAll s c (String c by_)))%nat.
Proof.
  induction s as [|c' s IH]; simpl; [lia|].
  destruct (c' =? c)%char; simpl; [|lia].
  rewrite length_append. lia.
Qed.

Lemma wrapped_longer q s : wrapped q s <> s.
Proof.
  intros H. apply (f_equal String.length) in H. unfold wrapped in H.
  rewrite <- replaceAll_doubled in H. simpl in H. rewrite length_append in H. simpl in H.
  pose proof (length_replaceAll s q (str q)). lia.
Qed.

Lemma escapeCSVValue_cases value :
  isNullish value = false ->
  (mustQuote (stringForm value) ->
     escapeCSVValue value = wrapped DQUOTE (stringForm value))
  /\ (~ mustQuote (stringForm value) -> escapeCSVValue value = stringForm value).
Proof.
  intros Hnn. unfold escapeCSVValue. rewrite Hnn.
  destruct (needsQuoting (stringForm value)) eqn:Hq.
  - split.
    + intros _. unfold wrapped. now rewrite replaceAll_doubled.
    + intros Hno. exfalso. apply Hno. now apply needsQuoting_mustQuote.
  - split.
    + intros Hyes. apply needsQuoting_mustQuote in Hyes. congruence.
    + reflexivity.
Qed.

Lemma get_missing r k : has r k = false -> get r k = JUndefined.
Proof.
  induction r as [|[k' v] r IH]; [reflexivity|].
  simpl. destruct (k' =? k); [discriminate|exact IH].
Qed.

End Escaping.



(** * Further properties of the code *)

(** ** Reading and writing properties *)

Section Properties.

Lemma has_overwrite r k v k' : has (overwrite r k v) k' = has r k'.
Proof.
  induction r as [|[k0 v0] r IH]; [reflexivity|].
  simpl. destruct (k0 =? k); simpl; [reflexivity|now rewrite IH].
Qed.

Lemma has_app r1 r2 k : has (r1 ++ r2)%list k = has r1 k || has r2 k.
Proof.
  induction r1 as [|[k0 v0] r1 IH]; [reflexivity|].
  simpl. now rewrite IH, orb_assoc.
Qed.

Lemma has_insertIndex r n k v k' :
  has (insertIndex r n k v) k' = (k =? k') || has r k'.
Proof.
  induction r as [|[k0 v0] r IH]; [reflexivity|].
  simpl. destruct (arrayIndex k0) as [n0|]; [destruct (n0 <? n)%N|]; simpl;
    try reflexivity.
  rewrite IH. destruct (k0 =? k'), (k =? k'); reflexivity.
Qed.

Lemma has_set r k v k' : has (set r k v) k' = (k =? k') || has r k'.
Proof.
  unfold set. destruct (has r k) eqn:Hk.
  - rewrite has_overwrite. destruct (String.eqb_spec k k') as [<-|]; [|reflexivity].
    now rewrite Hk.
  - destruct (arrayIndex k).
    + apply has_insertIndex.
    + rewrite has_app. simpl. rewrite orb_false_r. apply orb_comm.
Qed.

Lemma get_overwrite r k v k' :
  has r k = true ->
  get (overwrite r k v) k' = if k =? k' then v else get r k'.
Proof.
  induction r as [|[k0 v0] r IH]; [discriminate|].
  simpl. destruct (String.eqb_spec k0 k) as [->|Hneq]; simpl.
  - intros _. destruct (k =? k'); reflexivity.
  - intros Hk. rewrite (IH Hk).
    destruct (String.eqb_spec k0 k') as [->|]; [|reflexivity].
    destruct (String.eqb_spec k k'); [congruence|reflexivity].
Qed.

Lemma get_app r1 r2 k :
  get (r1 ++ r2)%list k = if has r1 k then get r1 k else get r2 k.
Proof.
  induction r1 as [|[k0 v0] r1 IH]; [reflexivity|].
  simpl. destruct (k0 =? k); [reflexivity|exact IH].
Qed.

Lemma get_insertIndex r n k v k' :
  has r k = false ->
  get (insertIndex r n k v) k' = if k =? k' then v else get r k'.
Proof.
  induction r as [|[k0 v0] r IH]; [reflexivity|].
  simpl. destruct (String.eqb_spec k0 k) as [->|Hneq]; [discriminate|]. simpl.
  intros Hk. destruct (arrayIndex k0) as [n0|]; [destruct (n0 <? n)%N|]; simpl;
    try reflexivity.
  rewrite (IH Hk). destruct (String.eqb_spec k0 k') as [->|]; [|reflexivity].
  destruct (String.eqb_spec k k'); [congruence|reflexivity].
Qed.

Lemma get_set r k v k' : get (set r k v) k' = if k =? k' then v else get r k'.
Proof.
  unfold set. destruct (has r k) eqn:Hk.
  - now apply get_overwrite.
  - destruct (arrayIndex k).
    + now apply get_insertIndex.
    + rewrite get_app. simpl.
      destruct (String.eqb_spec k k') as [<-|]; [now rewrite Hk|].
      destruct (has r k') eqn:Hk'; [reflexivity|]. now rewrite get_missing.
Qed.

Lemma has_spread r : forall base k, has (spread base r) k = has base k || has r k.
Proof.
  unfold spread. induction r as [|[k0 v0] r IH]; intros base k; simpl.
  - now rewrite orb_false_r.
  - rewrite IH, has_set. destruct (k0 =? k), (has base k); reflexivity.
Qed.

Lemma has_mergeMissing r : forall base k,
  has (mergeMissing base r) k = has base k || has r k.
Proof.
  unfold mergeMissing. induction r as [|[k0 v0] r IH]; intros base k; simpl.
  - now rewrite orb_false_r.
  - rewrite IH. destruct (has base k0) eqn:H0.
    + destruct (String.eqb_spec k0 k) as [<-|]; [now rewrite H0|reflexivity].
    + rewrite has_set. destruct (k0 =? k), (has base k); reflexivity.
Qed.

End Properties.

(** ** The number of records *)

Section RecordCount.

Lemma recordCount_pos : forall v, (1 <= recordCount v)%nat.
Proof.
  induction v as [| |b|n|s|items IH|entries IH] using any_ind; try (simpl; lia).
  - destruct items as [|item rest]; [simpl; lia|].
    cbn [recordCount]. destruct (allPrimitives (item :: rest)); [lia|].
    inversion IH; subst. cbn [map list_sum fold_right]. lia.
  - cbn [recordCount]. lia.
Qed.

Lemma explodeItems_count prefix sourcePath arrayLevel items :
  Forall (fun item => forall p c s l,
            List.length (explodeObject item p c s l) = recordCount item) items ->
  forall parentContext idx,
    List.length (explodeItems explodeObject prefix sourcePath arrayLevel
                   parentContext items idx)
    = list_sum (map recordCount items).
Proof.
  induction 1 as [|item rest Hitem Hrest IH]; intros ctx idx; [reflexivity|].
  cbn [explodeItems map]. rewrite length_app, Hitem, IH. reflexivity.
Qed.

Lemma explodeEntries_count prefix sourcePath arrayLevel entries :
  Forall (fun kv => forall p c s l,
            List.length (explodeObject (snd kv) p c s l) = recordCount (snd kv))
         entries ->
  forall baseContext nestedExplosions,
    List.length (snd (explodeEntries explodeObject prefix sourcePath arrayLevel
                        entries baseContext nestedExplosions))
    = (List.length nestedExplosions
       + list_sum (map (fun kv => nestedRows recordCount (snd kv)) entries))%nat.
Proof.
  induction 1 as [|[key value] rest Hvalue Hrest IH]; intros base nested.
  - simpl. lia.
  - simpl in Hvalue. cbn [explodeEntries map].
    change (list_sum (?x :: ?l)) with (x + list_sum l)%nat. simpl snd.
    destruct value as [| |b|n|s|elems|inner];
      try (rewrite IH; simpl; lia).
    + destruct elems as [|e elems'].
      * rewrite IH. simpl. lia.
      * cbn [nestedRows]. destruct (allPrimitives (e :: elems')) eqn:Hprim.
        -- rewrite IH. lia.
        -- rewrite IH, length_app, Hvalue. lia.
    + cbn [nestedRows].
      specialize (Hvalue (fullKeyOf prefix key) base sourcePath arrayLevel).
      destruct (explodeObject (JObj inner) (fullKeyOf prefix key) base sourcePath arrayLevel)
        as [|r1 [|r2 more]] eqn:Hex; rewrite <- Hvalue; simpl List.length.
      * rewrite IH. simpl. lia.
      * rewrite IH. simpl. lia.
      * rewrite IH, length_app. simpl. lia.
Qed.

Lemma recordCount_object entries :
  recordCount (JObj entries)
  = Nat.max 1 (list_sum (map (fun kv => nestedRows recordCount (snd kv)) entries)).
Proof.
  cbn [recordCount]. do 2 f_equal. apply map_ext. intros [key value]. simpl.
  destruct value as [| |b|n|s|elems|inner]; try reflexivity.
  destruct elems as [|e elems']; [reflexivity|].
  unfold nestedRows. cbn [recordCount].
  destruct (allPrimitives (e :: elems')); reflexivity.
Qed.

Lemma explodeObject_count : forall obj prefix parentContext sourcePath arrayLevel,
  List.length (explodeObject obj prefix parentContext sourcePath arrayLevel)
  = recordCount obj.
Proof.
  induction obj as [| |b|n|s|items IH|entries IH] using any_ind;
    intros prefix ctx sourcePath arrayLevel; try reflexivity.
  - destruct items as [|item rest]; [reflexivity|].
    cbn [explodeObject recordCount].
    destruct (allPrimitives (item :: rest)); [reflexivity|].
    pose proof (explodeItems_count prefix sourcePath arrayLevel (item :: rest) IH ctx 0)
      as Hlen.
    pose proof (recordCount_pos item) as Hpos.
    destruct (explodeItems explodeObject prefix sourcePath arrayLevel ctx (item :: rest) 0);
      [|exact Hlen].
    simpl in Hlen. cbn [map list_sum fold_right] in *. lia.
  - rewrite recordCount_object. cbn [explodeObject].
    pose proof (explodeEntries_count prefix sourcePath arrayLevel entries IH ctx [])
      as Hlen.
    destruct (explodeEntries explodeObject prefix sourcePath arrayLevel entries ctx [])
      as [base nested]. simpl in Hlen. rewrite <- Hlen.
    destruct nested; simpl; [reflexivity|]. rewrite length_map. lia.
Qed.

End RecordCount.

(** X1. The number of records depends on the shape of the value alone, not
    on the prefix, the parent context, the source path or the array level:
    a primitive, an empty array and an array of primitives give one record;
    an object array gives the sum of what its items give; an object gives
    the sum of what its object arrays and its nested objects exploding into
    several records give, or one record when that sum is zero.  So a chain of
    nested arrays multiplies and sibling arrays add. *)
Theorem record_count_by_shape :
  (forall obj prefix parentContext sourcePath arrayLevel,
      List.length (explodeObject obj prefix parentContext sourcePath arrayLevel)
      = recordCount obj)
  /\ (forall parsed, objectCount (parseAndFlattenJSON parsed) = recordCount parsed)
  /\ (forall v, (1 <= recordCount v)%nat)
  /\ (forall item rest,
        allPrimitives (item :: rest) = false ->
        recordCount (JArr (item :: rest)) = list_sum (map recordCount (item :: rest)))
  /\ (forall entries,
        recordCount (JObj entries)
        = Nat.max 1 (list_sum (map (fun kv => nestedRows recordCount (snd kv)) entries))).
Proof.
  split; [exact explodeObject_count|].
  split; [intros parsed; apply explodeObject_count|].
  split; [exact recordCount_pos|].
  split; [|exact recordCount_object].
  intros item rest Hprim. cbn [recordCount]. now rewrite Hprim.
Qed.

(** ** The parent context is kept *)

Section ParentContext.

Lemma explodeItems_own prefix sourcePath arrayLevel items k :
  Forall (fun item => forall p c s l,
            has c k = true -> allOwn k (explodeObject item p c s l)) items ->
  forall parentContext idx,
    has parentContext k = true
    \/ indexKey prefix arrayLevel = k ->
    allOwn k (explodeItems explodeObject prefix sourcePath arrayLevel
                parentContext items idx).
Proof.
  induction 1 as [|item rest Hitem Hrest IH]; intros ctx idx Hk; cbn [explodeItems].
  - constructor.
  - apply Forall_app. split; [|now apply IH].
    apply Hitem. rewrite has_set. destruct Hk as [-> | ->].
    + apply orb_true_r.
    + now rewrite String.eqb_refl.
Qed.

Lemma explodeEntries_own prefix sourcePath arrayLevel entries k :
  Forall (fun kv => forall p c s l,
            has c k = true -> allOwn k (explodeObject (snd kv) p c s l)) entries ->
  forall baseContext nestedExplosions,
    has baseContext k = true -> allOwn k nestedExplosions ->
    has (fst (explodeEntries explodeObject prefix sourcePath arrayLevel
                entries baseContext nestedExplosions)) k = true
    /\ allOwn k (snd (explodeEntries explodeObject prefix sourcePath arrayLevel
                        entries baseContext nestedExplosions)).
Proof.
  induction 1 as [|[key value] rest Hvalue Hrest IH]; intros base nested Hb Hn.
  - split; assumption.
  - simpl in Hvalue. cbn [explodeEntries].
    assert (Hset : forall v, has (set base (fullKeyOf prefix key) v) k = true)
      by (intros v; rewrite has_set, Hb; apply orb_true_r).
    destruct value as [| |b|n|s|elems|inner]; try (now apply IH).
    + destruct elems as [|e elems']; [now apply IH|].
      destruct (allPrimitives (e :: elems')); [now apply IH|].
      apply IH; [assumption|]. apply Forall_app. split; [assumption|now apply Hvalue].
    + pose proof (Hvalue (fullKeyOf prefix key) base sourcePath arrayLevel Hb) as Hown.
      destruct (explodeObject (JObj inner) (fullKeyOf prefix key) base sourcePath arrayLevel)
        as [|r1 [|r2 more]].
      * now apply IH.
      * apply IH; [|assumption]. rewrite has_mergeMissing, Hb. reflexivity.
      * apply IH; [assumption|]. apply Forall_app. split; assumption.
Qed.

Lemma explodeObject_own k : forall obj prefix parentContext sourcePath arrayLevel,
  has parentContext k = true ->
  allOwn k (explodeObject obj prefix parentContext sourcePath arrayLevel).
Proof.
  induction obj as [| |b|n|s|items IH|entries IH] using any_ind;
    intros prefix ctx sourcePath arrayLevel Hk;
    try (simpl; repeat constructor; rewrite has_set, Hk; apply orb_true_r).
  - cbn [explodeObject]. destruct items as [|item rest].
    + repeat constructor. rewrite has_set, Hk. apply orb_true_r.
    + destruct (allPrimitives (item :: rest)).
      * repeat constructor. rewrite has_set, Hk. apply orb_true_r.
      * pose proof (explodeItems_own prefix sourcePath arrayLevel (item :: rest) k IH
                      ctx 0 (or_introl Hk)) as Hown.
        destruct (explodeItems explodeObject prefix sourcePath arrayLevel ctx
                    (item :: rest) 0); [repeat constructor; assumption|exact Hown].
  - cbn [explodeObject].
    destruct (explodeEntries_own prefix sourcePath arrayLevel entries k IH ctx []
                Hk (Forall_nil _)) as [Hb Hn].
    destruct (explodeEntries explodeObject prefix sourcePath arrayLevel entries ctx [])
      as [base nested]. simpl in Hb, Hn.
    destruct nested as [|r rs]; [repeat constructor; assumption|].
    apply Forall_map. eapply Forall_impl; [|exact Hn].
    intros rec _. rewrite has_spread, Hb. reflexivity.
Qed.

End ParentContext.

(** X2. Exploding keeps the parent context: every field name of the parent
    context is a field name of every record returned, whatever the value.
    In particular every record that comes out of an object array carries the
    index column of that array. *)
Theorem parent_context_kept :
  (forall obj prefix parentContext sourcePath arrayLevel k,
      has parentContext k = true ->
      allOwn k (explodeObject obj prefix parentContext sourcePath arrayLevel))
  /\ (forall items prefix parentContext sourcePath arrayLevel,
        items <> [] -> allPrimitives items = false ->
        allOwn (indexKey prefix arrayLevel)
          (explodeObject (JArr items) prefix parentContext sourcePath arrayLevel)).
Proof.
  split; [intros; now apply explodeObject_own|].
  intros items prefix parentContext sourcePath arrayLevel Hne Hprim.
  destruct items as [|item rest]; [congruence|].
  cbn [explodeObject]. rewrite Hprim.
  assert (Hitems : Forall (fun item => forall p c s l,
            has c (indexKey prefix arrayLevel) = true ->
            allOwn (indexKey prefix arrayLevel) (explodeObject item p c s l))
            (item :: rest)).
  { apply Forall_forall. intros x _ p c s l. apply explodeObject_own. }
  pose proof (explodeItems_own prefix sourcePath arrayLevel (item :: rest) _ Hitems
                parentContext 0 (or_intror eq_refl)) as Hown.
  assert (Hlen : List.length
            (explodeItems explodeObject prefix sourcePath arrayLevel parentContext
               (item :: rest) 0) = list_sum (map recordCount (item :: rest))).
  { apply explodeItems_count. apply Forall_forall. intros x _ p c s l.
    apply explodeObject_count. }
  destruct (explodeItems explodeObject prefix sourcePath arrayLevel parentContext
              (item :: rest) 0) as [|r rs]; [|exact Hown].
  exfalso. pose proof (recordCount_pos item). cbn [map list_sum fold_right] in Hlen.
  simpl List.length in Hlen. lia.
Qed.

Lemma parent_context_kept_witness :
  allOwn "company"
    (explodeObject (JArr [JObj [("id", JNum (NInt 1))]]) "users"
       [("company", JStr "Acme")] "users" 1).
Proof.
  refine (proj1 parent_context_kept (JArr [JObj [("id", JNum (NInt 1))]]) "users"
            [("company", JStr "Acme")] "users" 1%nat "company" _).
  reflexivity.
Defined.

(** ** Documents without arrays *)

Section LeafFields.

Lemma has_In r k : has r k = true <-> In k (keys r).
Proof.
  induction r as [|[k0 v0] r IH]; simpl.
  - split; [discriminate|contradiction].
  - rewrite orb_true_iff, IH, String.eqb_eq. tauto.
Qed.

Lemma NoDup_app_disjoint {A : Type} (l1 l2 : list A) :
  NoDup (l1 ++ l2) -> forall a, In a l1 -> ~ In a l2.
Proof.
  induction l1 as [|x l1 IH]; intros Hnd a Hin; [contradiction|].
  simpl in Hnd. inversion Hnd as [|? ? Hx Hnd']; subst.
  destruct Hin as [->|Hin]; [|now apply IH].
  intros Hin2. apply Hx. apply in_or_app. now right.
Qed.

Lemma keys_app r1 r2 : keys (r1 ++ r2)%list = (keys r1 ++ keys r2)%list.
Proof. apply map_app. Qed.

Lemma has_apart r1 r2 :
  NoDup (keys (r1 ++ r2)%list) -> forall k, has r1 k = true -> has r2 k = false.
Proof.
  intros Hnd k H1. destruct (has r2 k) eqn:H2; [|reflexivity].
  rewrite keys_app in Hnd. apply has_In in H1, H2.
  exfalso. exact (NoDup_app_disjoint _ _ Hnd k H1 H2).
Qed.

Lemma fieldsOver_nil base : fieldsOver base base [].
Proof. intros k. simpl. now rewrite orb_false_r. Qed.

Lemma fieldsOver_set base key v :
  fieldsOver (set base key v) base [(key, v)].
Proof.
  intros k. rewrite has_set, get_set. simpl. rewrite orb_false_r.
  split; [apply orb_comm|]. destruct (key =? k); reflexivity.
Qed.

(** The fields of two steps, when the second step adds names the first did
    not. *)
Lemma fieldsOver_trans r1 r2 base f1 f2 :
  fieldsOver r1 base f1 -> fieldsOver r2 r1 f2 ->
  (forall k, has f1 k = true -> has f2 k = false) ->
  fieldsOver r2 base (f1 ++ f2)%list.
Proof.
  intros H1 H2 Hapart k. destruct (H1 k) as [Hh1 Hg1]. destruct (H2 k) as [Hh2 Hg2].
  rewrite has_app, get_app, Hh2, Hh1, Hg2, Hg1. split; [now rewrite orb_assoc|].
  destruct (has f1 k) eqn:E1; [now rewrite (Hapart k E1)|reflexivity].
Qed.

Lemma fieldsOver_mergeMissing base r fields :
  fieldsOver r base fields ->
  (forall k, has base k = true -> has fields k = false) ->
  fieldsOver (mergeMissing base r) base fields.
Proof.
  intros Hr Hapart.
  assert (Hget : forall r0 b k,
             get (mergeMissing b r0) k = if has b k then get b k else get r0 k).
  { unfold mergeMissing. induction r0 as [|[k0 v0] r0 IH]; intros b k; simpl.
    - destruct (has b k) eqn:E; [reflexivity|now apply get_missing].
    - rewrite IH. destruct (has b k0) eqn:E0.
      + destruct (String.eqb_spec k0 k) as [<-|]; [now rewrite E0|reflexivity].
      + rewrite has_set, get_set.
        destruct (String.eqb_spec k0 k) as [<-|]; simpl; [now rewrite E0|reflexivity]. }
  intros k. destruct (Hr k) as [Hh Hg]. rewrite has_mergeMissing, Hget, Hh, Hg.
  split; [destruct (has base k), (has fields k); reflexivity|].
  destruct (has base k) eqn:Eb; [now rewrite (Hapart k Eb)|reflexivity].
Qed.

Lemma leafFields_cons key value rest prefix :
  leafFields (JObj ((key, value) :: rest)) prefix
  = (leafField prefix key value ++ leafFields (JObj rest) prefix)%list.
Proof. destruct value; reflexivity. Qed.

Lemma explodeEntries_leafFields prefix sourcePath arrayLevel entries :
  Forall (fun kv => singleRecordOf (snd kv)) entries ->
  forallb (fun kv => arrayFree (snd kv)) entries = true ->
  forall baseContext,
    (forall k, has baseContext k = true ->
               has (leafFields (JObj entries) prefix) k = false) ->
    NoDup (keys (leafFields (JObj entries) prefix)) ->
    exists r,
      explodeEntries explodeObject prefix sourcePath arrayLevel entries baseContext []
      = (r, [])
      /\ fieldsOver r baseContext (leafFields (JObj entries) prefix).
Proof.
  induction 1 as [|[key value] rest Hvalue Hrest IH]; intros Hfree base Hapart Hnd.
  - exists base. split; [reflexivity|apply fieldsOver_nil].
  - simpl in Hfree. apply andb_true_iff in Hfree. destruct Hfree as [Hv Hfree].
    simpl in Hvalue, Hv.
    rewrite leafFields_cons in Hapart, Hnd |- *.
    set (first := leafField prefix key value) in *.
    assert (Hstep : exists base',
               explodeEntries explodeObject prefix sourcePath arrayLevel
                 ((key, value) :: rest) base []
               = explodeEntries explodeObject prefix sourcePath arrayLevel rest base' []
               /\ fieldsOver base' base first).
    { destruct value as [| |b|n|s|elems|inner]; try discriminate Hv;
        try (eexists; split; [reflexivity|apply fieldsOver_set]).
      assert (Hnd1 : NoDup (keys first))
        by (rewrite keys_app in Hnd; now apply NoDup_app_remove_r in Hnd).
      assert (Hap1 : forall k, has base k = true -> has first k = false).
      { intros k Hk. specialize (Hapart k Hk). rewrite has_app in Hapart.
        now apply orb_false_iff in Hapart. }
      destruct (Hvalue inner eq_refl Hv (fullKeyOf prefix key) base sourcePath
                  arrayLevel Hap1 Hnd1) as [r [Hex Hover]].
      exists (mergeMissing base r). cbn [explodeEntries]. rewrite Hex.
      split; [reflexivity|]. now apply fieldsOver_mergeMissing. }
    destruct Hstep as [base' [Hstep Hover1]]. rewrite Hstep.
    destruct (IH Hfree base') as [r [Hex Hover2]].
    + intros k Hk. destruct (Hover1 k) as [Hh _]. rewrite Hh in Hk.
      apply orb_true_iff in Hk. destruct Hk as [Hk|Hk].
      * specialize (Hapart k Hk). rewrite has_app in Hapart.
        now apply orb_false_iff in Hapart.
      * exact (has_apart _ _ Hnd k Hk).
    + rewrite keys_app in Hnd. now apply NoDup_app_remove_l in Hnd.
    + exists r. split; [exact Hex|].
      eapply fieldsOver_trans; [exact Hover1|exact Hover2|].
      intros k Hk. exact (has_apart _ _ Hnd k Hk).
Qed.

Lemma explodeObject_leafFields : forall v, singleRecordOf v.
Proof.
  induction v as [| |b|n|s|items IH|entries IH] using any_ind;
    intros entries' Heq; try discriminate Heq.
  injection Heq as <-. intros Hfree prefix ctx sourcePath arrayLevel Hapart Hnd.
  destruct (explodeEntries_leafFields prefix sourcePath arrayLevel entries IH Hfree
              ctx Hapart Hnd) as [r [Hex Hover]].
  exists r. cbn [explodeObject]. rewrite Hex. split; [reflexivity|exact Hover].
Qed.

End LeafFields.



(** ** Quoting can be read back *)

Section ReadingBack.

Lemma undouble_replaceAll c s : undouble c (replaceAll s c (String c (str c))) = s.
Proof.
  induction s as [|a s IH]; [reflexivity|].
  cbn [replaceAll]. destruct (a =? c)%char eqn:E.
  - apply Ascii.eqb_eq in E. subst a. cbn [append str undouble].
    rewrite Ascii.eqb_refl. cbn [andb]. now rewrite IH.
  - cbn [undouble]. destruct (replaceAll s c (String c (str c))) as [|b rest] eqn:D.
    + destruct s as [|a' s']; [reflexivity|].
      exfalso. cbn [replaceAll] in D. destruct (a' =? c)%char; discriminate D.
    + rewrite E. cbn [andb]. now rewrite IH.
Qed.

Lemma dropLast_append s c : dropLast (s ++ str c) = s.
Proof.
  induction s as [|a s IH]; [reflexivity|].
  cbn [append dropLast]. destruct (s ++ str c) as [|b rest] eqn:D.
  - destruct s; discriminate D.
  - now rewrite IH.
Qed.

Lemma unwrap_replaceAll q s :
  unwrap q (str q ++ replaceAll s q (String q (str q)) ++ str q) = Some s.
Proof.
  cbn [str append unwrap]. rewrite Ascii.eqb_refl.
  now rewrite dropLast_append, undouble_replaceAll.
Qed.

End ReadingBack.

(** X4. [escapeIdentifier] can be read back: unwrapping the identifier gives
    the name it was made from, so two different column names never give the
    same identifier. *)
Theorem escapeIdentifier_read_back :
  (forall identifier, unwrap DQUOTE (escapeIdentifier identifier) = Some identifier)
  /\ (forall a b, escapeIdentifier a = escapeIdentifier b -> a = b).
Proof.
  assert (H : forall identifier,
             unwrap DQUOTE (escapeIdentifier identifier) = Some identifier)
    by (intros; apply unwrap_replaceAll).
  split; [exact H|].
  intros a b Heq. apply (f_equal (unwrap DQUOTE)) in Heq. rewrite !H in Heq.
  now injection Heq.
Qed.

(** X5. A value that is written as an SQL string literal can be read back:
    for any value that is not null, undefined, a number or a boolean,
    unwrapping the literal gives the string of the value, whatever quotes
    that string holds, so the literal ends where it should. *)
Theorem sql_literal_read_back (value : any)
    (Hnull : isNullish value = false) (Hnum : isNumberValue value = false)
    (Hbool : isBooleanValue value = false) :
  unwrap SQUOTE (sqlValue value) = Some (ToString value).
Proof.
  destruct value; try discriminate; apply unwrap_replaceAll.
Qed.

Lemma sql_literal_read_back_witness :
  unwrap SQUOTE (sqlValue (JStr ("it" ++ str SQUOTE ++ "s; DROP TABLE t")))
  = Some ("it" ++ str SQUOTE ++ "s; DROP TABLE t").
Proof.
  apply (sql_literal_read_back (JStr ("it" ++ str SQUOTE ++ "s; DROP TABLE t")));
    reflexivity.
Defined.

(** X6. A CSV field can be read back: for every value that is not null or
    undefined, reading the field gives the string form of the value.  A field
    that was left unquoted holds no comma, no double quote, no line feed and
    no carriage return, so it cannot be cut by a separator. *)
Theorem csv_field_read_back (value : any) (Hvalue : isNullish value = false) :
  readCSVField (escapeCSVValue value) = stringForm value
  /\ (needsQuoting (stringForm value) = false ->
      escapeCSVValue value = stringForm value
      /\ includes (escapeCSVValue value) ","%char = false
      /\ includes (escapeCSVValue value) DQUOTE = false
      /\ includes (escapeCSVValue value) LF = false
      /\ includes (escapeCSVValue value) CR = false).
Proof.
  unfold escapeCSVValue. rewrite Hvalue.
  destruct (needsQuoting (stringForm value)) eqn:Hq.
  - split; [|discriminate]. unfold readCSVField. now rewrite unwrap_replaceAll.
  - unfold needsQuoting in Hq.
    apply orb_false_iff in Hq. destruct Hq as [Hq _].
    apply orb_false_iff in Hq. destruct Hq as [Hq Hcr].
    apply orb_false_iff in Hq. destruct Hq as [Hq Hlf].
    apply orb_false_iff in Hq. destruct Hq as [Hcomma Hdq].
    split; [|intros _; repeat split; assumption].
    unfold readCSVField, unwrap. destruct (stringForm value) as [|a rest] eqn:Hs;
      [reflexivity|].
    destruct (a =? DQUOTE)%char eqn:Ha; [|reflexivity].
    simpl in Hdq. rewrite Ha in Hdq. discriminate Hdq.
Qed.

Lemma csv_field_read_back_witness :
  readCSVField (escapeCSVValue (JStr ("say " ++ str DQUOTE ++ "hi" ++ str DQUOTE ++ ", bye")))
  = "say " ++ str DQUOTE ++ "hi" ++ str DQUOTE ++ ", bye".
Proof.
  refine (proj1 (csv_field_read_back
                   (JStr ("say " ++ str DQUOTE ++ "hi" ++ str DQUOTE ++ ", bye")) _)).
  reflexivity.
Defined.

(** ** The table name and the CREATE TABLE statement *)

Section CreateTable.

Lemma chars_mapChars f s :
  list_ascii_of_string (mapChars f s) = map f (list_ascii_of_string s).
Proof. induction s as [|c s IH]; [reflexivity|]. simpl. now rewrite IH. Qed.

Lemma length_mapChars f s : String.length (mapChars f s) = String.length s.
Proof. induction s as [|c s IH]; [reflexivity|]. simpl. now rewrite IH. Qed.

Lemma mapChars_id f s :
  allChars (fun c => (f c =? c)%char) s = true -> mapChars f s = s.
Proof.
  unfold allChars. induction s as [|c s IH]; [reflexivity|].
  simpl. rewrite andb_true_iff. intros [Hc Hs]. apply Ascii.eqb_eq in Hc.
  now rewrite Hc, IH.
Qed.

Lemma replaceAll_absent s c by_ : includes s c = false -> replaceAll s c by_ = s.
Proof.
  induction s as [|a s IH]; [reflexivity|].
  simpl. rewrite orb_false_iff. intros [Ha Hs]. now rewrite Ha, IH.
Qed.

Lemma inferSQLType_not_empty col values : inferSQLType col values <> EmptyString.
Proof.
  unfold inferSQLType.
  destruct (hasBoolean _ && negb (hasNumber _) && negb (hasString _)); [discriminate|].
  destruct (hasNumber _ && negb (hasString _)).
  - destruct (allIntegers _); discriminate.
  - destruct (maxLength _ =? 0)%nat; [discriminate|].
    destruct (maxLength _ <=? 255)%nat; discriminate.
Qed.

Lemma typeOrText_columnTypesOf data columns col :
  In col columns ->
  typeOrText (columnTypesOf data columns) col = inferSQLType col (columnValues data col).
Proof.
  unfold typeOrText, columnTypesOf. intros Hin.
  assert (Hget : Map_get
            (map (fun c => (c, inferSQLType c (map (fun record => get record c) data)))
               columns) col
          = Some (inferSQLType col (columnValues data col))).
  { induction columns as [|c rest IH]; [contradiction|].
    simpl. destruct (String.eqb_spec c col) as [->|Hneq]; [reflexivity|].
    destruct Hin as [Heq|Hin]; [congruence|now apply IH]. }
  rewrite Hget. pose proof (inferSQLType_not_empty col (columnValues data col)) as Hne.
  destruct (inferSQLType col (columnValues data col)); [congruence|reflexivity].
Qed.

Lemma columnLines_commas data columns : forall before init last,
  columns = (before ++ init ++ [last])%list ->
  columnLines (columnTypesOf data columns) (List.length columns)
    (init ++ [last]) (List.length before)
  = (map (fun col => columnLine data col ",") init ++ [columnLine data last EmptyString])%list.
Proof.
  intros before init. revert before.
  induction init as [|col init IH]; intros before last Hcols.
  - cbn [app columnLines map]. rewrite typeOrText_columnTypesOf
      by (rewrite Hcols; apply in_or_app; right; now left).
    replace (List.length before <? List.length columns - 1)%nat with false; [reflexivity|].
    symmetry. apply Nat.ltb_ge. rewrite Hcols, length_app. simpl. lia.
  - cbn [app columnLines map]. rewrite typeOrText_columnTypesOf
      by (rewrite Hcols; apply in_or_app; right; now left).
    replace (List.length before <? List.length columns - 1)%nat with true.
    + f_equal. specialize (IH (before ++ [col])%list last).
      rewrite length_app in IH. simpl in IH. rewrite Nat.add_1_r in IH.
      apply IH. rewrite Hcols, <- app_assoc. reflexivity.
    + symmetry. apply Nat.ltb_lt. rewrite Hcols, !length_app. simpl.
      rewrite ?length_app. simpl. lia.
Qed.

End CreateTable.

(** X7. The sanitized table name holds only letters, digits and
    underscores and has the length of the given name; a name that is already
    made of such characters is kept, so sanitizing twice changes nothing
    more; and the table identifier of the output is the sanitized name
    between two double quotes, with nothing to double. *)
Theorem sanitizeTableName_safe (tableName : string) :
  allChars isIdentChar (sanitizeTableName tableName) = true
  /\ String.length (sanitizeTableName tableName) = String.length tableName
  /\ (allChars isIdentChar tableName = true -> sanitizeTableName tableName = tableName)
  /\ sanitizeTableName (sanitizeTableName tableName) = sanitizeTableName tableName
  /\ escapeIdentifier (sanitizeTableName tableName)
     = str DQUOTE ++ sanitizeTableName tableName ++ str DQUOTE.
Proof.
  assert (Hsafe : allChars isIdentChar (sanitizeTableName tableName) = true).
  { unfold allChars, sanitizeTableName. rewrite chars_mapChars.
    apply forallb_forall. intros c Hc. apply in_map_iff in Hc.
    destruct Hc as [c0 [<- _]]. destruct (isIdentChar c0) eqn:E; [exact E|reflexivity]. }
  assert (Hid : forall t, allChars isIdentChar t = true -> sanitizeTableName t = t).
  { intros t Ht. apply mapChars_id. unfold allChars in *.
    rewrite forallb_forall in *. intros c Hc. rewrite (Ht c Hc). apply Ascii.eqb_refl. }
  split; [exact Hsafe|]. split; [|split; [apply Hid|split; [apply Hid; exact Hsafe|]]].
  - apply length_mapChars.
  - unfold escapeIdentifier. rewrite replaceAll_absent; [reflexivity|].
    unfold allChars in Hsafe. rewrite forallb_forall in Hsafe.
    destruct (includes (sanitizeTableName tableName) DQUOTE) eqn:E; [|reflexivity].
    apply includes_In in E. specialize (Hsafe _ E). discriminate Hsafe.
Qed.

Lemma sanitizeTableName_safe_witness :
  sanitizeTableName "my_table_2" = "my_table_2".
Proof.
  apply (proj1 (proj2 (proj2 (sanitizeTableName_safe "my_table_2")))). reflexivity.
Defined.


(** ** What the inferred type does not depend on *)

Section TypeInvariance.

Lemma existsb_Permutation {A : Type} (f : A -> bool) l l' :
  Permutation l l' -> existsb f l = existsb f l'.
Proof.
  induction 1 as [|x l l' _ IH|x y l|l l' l'' _ IH1 _ IH2]; simpl.
  - reflexivity.
  - now rewrite IH.
  - destruct (f x), (f y); reflexivity.
  - now rewrite IH1.
Qed.

Lemma forallb_Permutation {A : Type} (f : A -> bool) l l' :
  Permutation l l' -> forallb f l = forallb f l'.
Proof.
  induction 1 as [|x l l' _ IH|x y l|l l' l'' _ IH1 _ IH2]; simpl.
  - reflexivity.
  - now rewrite IH.
  - destruct (f x), (f y); reflexivity.
  - now rewrite IH1.
Qed.

Lemma maxTextLength_Permutation l l' :
  Permutation l l' -> maxTextLength l = maxTextLength l'.
Proof.
  unfold maxTextLength.
  induction 1 as [|x l l' _ IH|x y l|l l' l'' _ IH1 _ IH2]; cbn [map].
  - reflexivity.
  - change (list_max (?a :: ?m)) with (Nat.max a (list_max m)). now rewrite IH.
  - change (list_max (?a :: ?b :: ?m)) with (Nat.max a (Nat.max b (list_max m))). lia.
  - now rewrite IH1.
Qed.

Lemma profileOf_Permutation l l' :
  Permutation l l' ->
  hasNumber (profileOf l) = hasNumber (profileOf l')
  /\ hasBoolean (profileOf l) = hasBoolean (profileOf l')
  /\ hasString (profileOf l) = hasString (profileOf l')
  /\ allIntegers (profileOf l) = allIntegers (profileOf l')
  /\ maxLength (profileOf l) = maxLength (profileOf l').
Proof.
  intros Hperm. rewrite !profileOf_spec. cbn.
  rewrite (existsb_Permutation isNumberValue _ _ Hperm),
          (existsb_Permutation isBooleanValue _ _ Hperm),
          (existsb_Permutation isTextValue _ _ Hperm),
          (forallb_Permutation finiteIntegerIfNumber _ _ Hperm),
          (maxTextLength_Permutation _ _ Hperm).
  repeat split.
Qed.

Lemma profileOf_nonNull l :
  hasNumber (profileOf (nonNull l)) = hasNumber (profileOf l)
  /\ hasBoolean (profileOf (nonNull l)) = hasBoolean (profileOf l)
  /\ hasString (profileOf (nonNull l)) = hasString (profileOf l)
  /\ allIntegers (profileOf (nonNull l)) = allIntegers (profileOf l)
  /\ maxLength (profileOf (nonNull l)) = maxLength (profileOf l).
Proof.
  rewrite !profileOf_spec. cbn. unfold nonNull, maxTextLength.
  induction l as [|v l (Hn & Hb & Hs & Hi & Hm)]; [repeat split|].
  destruct v; cbn [filter isNullish negb existsb forallb map isNumberValue
                   isBooleanValue isTextValue finiteIntegerIfNumber textLength orb andb];
    try (repeat split; assumption);
    change (list_max (?a :: ?m)) with (Nat.max a (list_max m));
    rewrite ?Hn, ?Hb, ?Hs, ?Hi, ?Hm; repeat split.
Qed.

End TypeInvariance.

(** X9. The type inferred for a column is one of BOOLEAN, BIGINT, DOUBLE
    PRECISION, VARCHAR(255) and TEXT.  It does not depend on the order of the
    values, hence not on the order of the records, nor on the null and
    undefined values among them, hence not on the records that lack the
    column, nor on the name of the column. *)
Theorem inferSQLType_invariant :
  (forall columnName values, In (inferSQLType columnName values) sqlTypes)
  /\ (forall columnName values values',
        Permutation values values' ->
        inferSQLType columnName values = inferSQLType columnName values')
  /\ (forall columnName values,
        inferSQLType columnName (nonNull values) = inferSQLType columnName values)
  /\ (forall columnName otherName values,
        inferSQLType columnName values = inferSQLType otherName values).
Proof.
  split; [|split; [|split]].
  - intros columnName values. unfold inferSQLType, sqlTypes.
    destruct (hasBoolean _ && negb (hasNumber _) && negb (hasString _)); [simpl; tauto|].
    destruct (hasNumber _ && negb (hasString _)).
    + destruct (allIntegers _); simpl; tauto.
    + destruct (maxLength _ =? 0)%nat; [simpl; tauto|].
      destruct (maxLength _ <=? 255)%nat; simpl; tauto.
  - intros columnName values values' Hperm. unfold inferSQLType.
    destruct (profileOf_Permutation _ _ Hperm) as (-> & -> & -> & -> & ->).
    reflexivity.
  - intros columnName values. unfold inferSQLType.
    destruct (profileOf_nonNull values) as (-> & -> & -> & -> & ->).
    reflexivity.
  - reflexivity.
Qed.

(** ** From the flattener to the generators *)

Section Pipeline.

Lemma append_not_empty a c b : a ++ String c b <> EmptyString.
Proof. destruct a; discriminate. Qed.

End Pipeline.

(** X10. The record set of the flattener never reaches the degenerate outputs
    of the generators: for every value the SQL text is the full text, whose
    header counts as many records as the shape of the value gives, never the
    placeholder comment, and the CSV text has a header row and at least one
    data row, never the empty text. *)
Theorem flattened_output_not_degenerate (value : any) (now tableName : string) :
  generateSQL now (fst (flatten value)) tableName <> "-- No data to convert"
  /\ (exists rest,
        generateSQL now (fst (flatten value)) tableName
        = "-- SQL Generated: " ++ now ++ str LF
          ++ "-- Table: " ++ sanitizeTableName tableName ++ str LF
          ++ "-- Records: " ++ nat_toString (recordCount value) ++ rest)
  /\ generateCSV (fst (flatten value)) <> EmptyString
  /\ (exists headerRow firstRow rows,
        generateCSV (fst (flatten value))
        = String.concat (str LF) (headerRow :: firstRow :: rows)).
Proof.
  pose proof (explodeObject_count value EmptyString [] EmptyString 0) as Hcount.
  pose proof (recordCount_pos value) as Hpos.
  unfold flatten, parseAndFlattenJSON. cbn [data fst].
  destruct (explodeObject value EmptyString [] EmptyString 0) as [|r rs] eqn:Hex;
    [simpl in Hcount; lia|].
  split; [|split; [|split]].
  - unfold generateSQL. simpl. discriminate.
  - unfold generateSQL. rewrite Hcount. eexists. reflexivity.
  - unfold generateCSV. cbn [map String.concat]. apply append_not_empty.
  - unfold generateCSV. cbn [map]. do 3 eexists. reflexivity.
Qed.

(** ** The CSV text can be read back *)

Section ReadCSV.

Lemma append_assoc (a b c : string) : (a ++ b) ++ c = a ++ (b ++ c).
Proof. induction a as [|x a IH]; [reflexivity|]. simpl. now rewrite IH. Qed.

Lemma append_empty_r (a : string) : a ++ EmptyString = a.
Proof. induction a as [|x a IH]; [reflexivity|]. simpl. now rewrite IH. Qed.

Lemma parse_plain s : forall tail field row,
  includes s ","%char = false -> includes s DQUOTE = false -> includes s LF = false ->
  parseCSV (s ++ tail) false field row = parseCSV tail false (field ++ s) row.
Proof.
  induction s as [|a s IH]; intros tail field row Hc Hq Hl.
  - simpl. now rewrite append_empty_r.
  - simpl in Hc, Hq, Hl.
    apply orb_false_iff in Hc, Hq, Hl.
    destruct Hc as [Hc Hc'], Hq as [Hq Hq'], Hl as [Hl Hl'].
    cbn [append parseCSV]. rewrite Hc, Hq, Hl, IH by assumption.
    now rewrite append_assoc.
Qed.

Lemma parse_quoted s : forall tail field row,
  afterField tail ->
  parseCSV (replaceAll s DQUOTE (String DQUOTE (str DQUOTE)) ++ String DQUOTE tail)
    true field row
  = parseCSV tail false (field ++ s) row.
Proof.
  induction s as [|a s IH]; intros tail field row Htail.
  - cbn [replaceAll append parseCSV]. rewrite Ascii.eqb_refl, append_empty_r.
    destruct Htail as [->|[c [rest [-> Hc]]]]; [reflexivity|].
    replace (c =? DQUOTE)%char with false; [reflexivity|].
    symmetry. apply Ascii.eqb_neq. destruct Hc as [->| ->]; discriminate.
  - cbn [replaceAll]. destruct (a =? DQUOTE)%char eqn:Ha.
    + apply Ascii.eqb_eq in Ha. subst a. cbn [append str parseCSV].
      rewrite Ascii.eqb_refl, IH by assumption. now rewrite append_assoc.
    + cbn [append parseCSV]. rewrite Ha, IH by assumption. now rewrite append_assoc.
Qed.

Lemma parse_field value tail row :
  afterField tail ->
  parseCSV (escapeCSVValue value ++ tail) false EmptyString row
  = parseCSV tail false (fieldText value) row.
Proof.
  intros Htail. unfold escapeCSVValue, fieldText.
  destruct (isNullish value); [reflexivity|].
  destruct (needsQuoting (stringForm value)) eqn:Hq.
  - rewrite !append_assoc. cbn [str append parseCSV].
    replace (DQUOTE =? ",")%char with false by reflexivity.
    replace (DQUOTE =? LF)%char with false by reflexivity.
    rewrite Ascii.eqb_refl. now rewrite parse_quoted.
  - unfold needsQuoting in Hq.
    apply orb_false_iff in Hq. destruct Hq as [Hq _].
    apply orb_false_iff in Hq. destruct Hq as [Hq _].
    apply orb_false_iff in Hq. destruct Hq as [Hq Hlf].
    apply orb_false_iff in Hq. destruct Hq as [Hcomma Hdq].
    now rewrite parse_plain.
Qed.

(** A row of fields, then the end of the text or a line feed and more. *)
Lemma parse_row values : forall value row,
  (parseCSV (String.concat "," (map escapeCSVValue (value :: values))) false
     EmptyString row
   = [(row ++ map fieldText (value :: values))%list])
  /\ (forall more,
        parseCSV (String.concat "," (map escapeCSVValue (value :: values))
                  ++ String LF more) false EmptyString row
        = (row ++ map fieldText (value :: values))%list
          :: parseCSV more false EmptyString []).
Proof.
  induction values as [|next values IH]; intros value row.
  - cbn [map String.concat]. split.
    + rewrite <- (append_empty_r (escapeCSVValue value)).
      rewrite parse_field by (now left). reflexivity.
    + intros more. rewrite parse_field by (right; eauto).
      cbn [parseCSV]. replace (LF =? ",")%char with false by reflexivity.
      now rewrite Ascii.eqb_refl.
  - destruct (IH next (row ++ [fieldText value])%list) as [Hend Hmore].
    change (String.concat "," (map escapeCSVValue (value :: next :: values)))
      with (escapeCSVValue value
            ++ String ","%char (String.concat "," (map escapeCSVValue (next :: values)))).
    split.
    + rewrite parse_field by (right; eauto). cbn [parseCSV].
      rewrite Ascii.eqb_refl, Hend, <- app_assoc. reflexivity.
    + intros more. rewrite append_assoc. cbn [append].
      rewrite parse_field by (right; eauto). cbn [parseCSV].
      rewrite Ascii.eqb_refl, Hmore, <- app_assoc. reflexivity.
Qed.

(** Rows that all have a field, joined with line feeds. *)
Lemma parse_rows (rows : list (list any)) : forall row,
  row <> [] -> Forall (fun r => r <> []) rows ->
  readCSV (String.concat (str LF)
             (map (fun r => String.concat "," (map escapeCSVValue r)) (row :: rows)))
  = map (map fieldText) (row :: rows).
Proof.
  unfold readCSV. induction rows as [|next rows IH]; intros row Hrow Hrows.
  - destruct row as [|v vs]; [congruence|].
    change (String.concat (str LF)
              (map (fun r => String.concat "," (map escapeCSVValue r)) [v :: vs]))
      with (String.concat "," (map escapeCSVValue (v :: vs))).
    now rewrite (proj1 (parse_row vs v [])).
  - destruct row as [|v vs]; [congruence|].
    inversion Hrows as [|? ? Hnext Hrows']; subst.
    change (String.concat (str LF)
              (map (fun r => String.concat "," (map escapeCSVValue r))
                 ((v :: vs) :: next :: rows)))
      with (String.concat "," (map escapeCSVValue (v :: vs))
            ++ String LF
                 (String.concat (str LF)
                    (map (fun r => String.concat "," (map escapeCSVValue r))
                       (next :: rows)))).
    rewrite (proj2 (parse_row vs v [])), IH by assumption. reflexivity.
Qed.

End ReadCSV.



(** ** The storage of pending conversions *)

Section PendingConversions.

Lemma Map_get_set_same m key value :
  Storage.Map_get (Storage.Map_set m key value) key = Some value.
Proof.
  induction m as [|[k v] m IH]; simpl.
  - now rewrite String.eqb_refl.
  - destruct (k =? key) eqn:E; simpl; rewrite E; [reflexivity|exact IH].
Qed.

Lemma Map_get_set_other m key value other :
  other <> key ->
  Storage.Map_get (Storage.Map_set m key value) other = Storage.Map_get m other.
Proof.
  intros Hneq. induction m as [|[k v] m IH]; simpl.
  - destruct (String.eqb_spec key other); [congruence|reflexivity].
  - destruct (String.eqb_spec k key) as [->|]; simpl.
    + destruct (String.eqb_spec key other); [congruence|reflexivity].
    + now rewrite IH.
Qed.

Lemma Map_get_none m key : ~ In key (map fst m) -> Storage.Map_get m key = None.
Proof.
  induction m as [|[k v] m IH]; [reflexivity|].
  simpl. intros Hnot. destruct (String.eqb_spec k key) as [->|]; [tauto|].
  apply IH. tauto.
Qed.

Lemma Map_get_delete_same m key :
  Storage.wellFormed m -> Storage.Map_get (Storage.Map_delete m key) key = None.
Proof.
  unfold Storage.wellFormed. induction m as [|[k v] m IH]; [reflexivity|].
  simpl. intros Hnd. inversion Hnd as [|? ? Hk Hnd']; subst.
  destruct (String.eqb_spec k key) as [->|Hneq].
  - now apply Map_get_none.
  - simpl. destruct (String.eqb_spec k key); [congruence|now apply IH].
Qed.

Lemma Map_get_delete_other m key other :
  other <> key ->
  Storage.Map_get (Storage.Map_delete m key) other = Storage.Map_get m other.
Proof.
  intros Hneq. induction m as [|[k v] m IH]; [reflexivity|].
  simpl. destruct (String.eqb_spec k key) as [->|]; simpl.
  - destruct (String.eqb_spec key other); [congruence|reflexivity].
  - now rewrite IH.
Qed.

Lemma keys_Map_set m key value :
  forall k, In k (map fst (Storage.Map_set m key value)) <-> k = key \/ In k (map fst m).
Proof.
  induction m as [|[k0 v0] m IH]; intros k; simpl.
  - intuition.
  - destruct (String.eqb_spec k0 key) as [->|]; simpl; [intuition|].
    rewrite IH. intuition.
Qed.

Lemma wellFormed_Map_set m key value :
  Storage.wellFormed m -> Storage.wellFormed (Storage.Map_set m key value).
Proof.
  unfold Storage.wellFormed. induction m as [|[k v] m IH]; simpl; intros Hnd.
  - repeat constructor. intros [].
  - inversion Hnd as [|? ? Hk Hnd']; subst.
    destruct (String.eqb_spec k key) as [->|Hneq]; simpl; [now constructor|].
    constructor; [|now apply IH].
    rewrite keys_Map_set. intros [Heq|Hin]; [congruence|contradiction].
Qed.

Lemma keys_Map_delete m key :
  forall k, In k (map fst (Storage.Map_delete m key)) -> In k (map fst m).
Proof.
  induction m as [|[k0 v0] m IH]; intros k; simpl; [tauto|].
  destruct (k0 =? key); simpl; [tauto|]. intros [H|H]; [tauto|]. right. now apply IH.
Qed.

Lemma wellFormed_Map_delete m key :
  Storage.wellFormed m -> Storage.wellFormed (Storage.Map_delete m key).
Proof.
  unfold Storage.wellFormed. induction m as [|[k v] m IH]; simpl; intros Hnd.
  - constructor.
  - inversion Hnd as [|? ? Hk Hnd']; subst.
    destruct (k =? key); simpl; [assumption|].
    constructor; [|now apply IH]. intros Hin. apply Hk. eapply keys_Map_delete, Hin.
Qed.

End PendingConversions.

(** X12. A pending conversion that was saved is found again under its session
    id, with the fields it was saved with and the date of the save; saving or
    deleting one session leaves what is stored under every other session id
    as it was; saving again under the same id replaces the row; and after
    [deletePendingConversion] nothing is found under the id.  The storage
    keeps one row per session id throughout. *)
Theorem pending_conversion_round_trip :
  (forall now m data,
      Storage.getPendingConversion
        (fst (Storage.savePendingConversion now m data)) (Storage.insertSessionId data)
      = Some {| Storage.sessionId := Storage.insertSessionId data;
                Storage.jsonInput := Storage.insertJsonInput data;
                Storage.outputFormat := Storage.insertOutputFormat data;
                Storage.tableName := Storage.insertTableName data;
                Storage.createdAt := now |})
  /\ (forall now m data other,
        other <> Storage.insertSessionId data ->
        Storage.getPendingConversion (fst (Storage.savePendingConversion now m data)) other
        = Storage.getPendingConversion m other)
  /\ (forall m id,
        Storage.wellFormed m ->
        Storage.getPendingConversion (Storage.deletePendingConversion m id) id = None)
  /\ (forall m id other,
        other <> id ->
        Storage.getPendingConversion (Storage.deletePendingConversion m id) other
        = Storage.getPendingConversion m other)
  /\ Storage.wellFormed []
  /\ (forall now m data,
        Storage.wellFormed m ->
        Storage.wellFormed (fst (Storage.savePendingConversion now m data)))
  /\ (forall m id,
        Storage.wellFormed m -> Storage.wellFormed (Storage.deletePendingConversion m id)).
Proof.
  split; [intros; apply Map_get_set_same|].
  split; [intros; now apply Map_get_set_other|].
  split; [intros; now apply Map_get_delete_same|].
  split; [intros; now apply Map_get_delete_other|].
  split; [constructor|].
  split; [intros; now apply wellFormed_Map_set|].
  intros; now apply wellFormed_Map_delete.
Qed.

(** ** The conversion route and its payment gate *)

Section ConversionRoute.

Lemma length_splitOn c s : forall current,
  List.length (Routes.splitOn c s current) = S (Routes.occurrences c s).
Proof.
  induction s as [|a s IH]; intros current; [reflexivity|].
  simpl. destruct (a =? c)%char; simpl; now rewrite IH.
Qed.

Lemma lineCountOf_occurrences jsonInput :
  Routes.lineCountOf jsonInput = S (Routes.occurrences LF jsonInput).
Proof. apply length_splitOn. Qed.

Lemma occurrences_absent c s : includes s c = false -> Routes.occurrences c s = 0%nat.
Proof.
  induction s as [|a s IH]; [reflexivity|].
  simpl. intros H. apply orb_false_iff in H. destruct H as [-> H]. now apply IH.
Qed.

Lemma generate_not_empty now format tableName value :
  Routes.generate now format tableName (data (parseAndFlattenJSON value)) <> EmptyString.
Proof.
  pose proof (explodeObject_count value EmptyString [] EmptyString 0) as Hcount.
  pose proof (recordCount_pos value) as Hpos.
  unfold Routes.generate, parseAndFlattenJSON. cbn [data].
  destruct (explodeObject value EmptyString [] EmptyString 0) as [|r rs];
    [simpl in Hcount; lia|].
  destruct (format =? "sql").
  - unfold generateSQL. simpl. discriminate.
  - unfold generateCSV. cbn [map String.concat]. apply append_not_empty.
Qed.

Lemma mem_Set_add names key k :
  mem k (Set_add names key) = mem k names || (key =? k).
Proof.
  unfold Set_add. fold (mem key names). destruct (mem key names) eqn:E.
  - destruct (String.eqb_spec key k) as [<-|]; [now rewrite E|now rewrite orb_false_r].
  - unfold mem. rewrite existsb_app. simpl. now rewrite orb_false_r.
Qed.

End ConversionRoute.

(** X13. The payment gate of the conversion route.  For a valid request whose
    text parses, the response is a result with status 200 that reports the
    number of lines of the text, one more than its line feeds, and the
    nesting depth.  Payment is required exactly when the text has more than
    50 lines and the first non-empty session id among the query, the body
    and the header, in that order, is not a paid one; the output is then
    empty.  Otherwise the output is the generated text, which is never empty;
    a text on a single line is never gated, whatever the number of records. *)
Theorem convert_payment_gate
    (JSON_parse : string -> any + string) (paidSessions : list string) (now : string)
    (query header : option string) (request : Routes.ConversionRequest) (value : any)
    (Hvalid : Routes.validRequest request = true)
    (Hparse : JSON_parse (Routes.jsonInput request) = inl value) :
  let lines := S (Routes.occurrences LF (Routes.jsonInput request)) in
  let paid :=
    Routes.isPaidSession paidSessions
      (Routes.firstTruthy query (Routes.sessionId request) header) in
  exists result,
    Routes.convert JSON_parse paidSessions now query header request
    = {| Routes.status := 200; Routes.body := Routes.ResultBody result |}
    /\ Routes.lineCount result = lines
    /\ Routes.nestingLevel result = height value
    /\ Routes.requiresPayment result = (50 <? lines)%nat && negb paid
    /\ (Routes.requiresPayment result = true -> Routes.output result = EmptyString)
    /\ (Routes.requiresPayment result = false ->
        Routes.output result
        = Routes.generate now (Routes.outputFormat request)
            (Routes.orDefault (Routes.tableName request) "converted_data")
            (fst (flatten value))
        /\ Routes.output result <> EmptyString)
    /\ (includes (Routes.jsonInput request) LF = false ->
        Routes.requiresPayment result = false).
Proof.
  intros lines paid. unfold Routes.convert. rewrite Hvalid, Hparse. cbn [negb].
  rewrite lineCountOf_occurrences. fold lines. fold paid.
  assert (Hdepth : maxNestingLevel (parseAndFlattenJSON value) = height value)
    by (unfold parseAndFlattenJSON; simpl; apply getNestingLevel_height).
  destruct ((50 <? lines)%nat && negb paid) eqn:Hgate.
  - eexists. split; [reflexivity|]. cbn. repeat split; try assumption; try discriminate.
    intros Hone. subst lines. rewrite (occurrences_absent _ _ Hone) in Hgate.
    discriminate Hgate.
  - eexists. split; [reflexivity|]. cbn. repeat split; try assumption; try discriminate.
    apply generate_not_empty.
Qed.

Lemma convert_payment_gate_witness :
  exists result,
    Routes.convert (fun _ => inl (JObj [("a", JNum (NInt 1))])) ["cs_1"]
      "2024-01-01T00:00:00.000Z" None (Some "cs_1")
      {| Routes.jsonInput := "{" ++ str LF ++ "}"; Routes.outputFormat := "csv";
         Routes.tableName := None; Routes.sessionId := Some EmptyString |}
    = {| Routes.status := 200; Routes.body := Routes.ResultBody result |}
    /\ Routes.lineCount result = 2%nat.
Proof.
  destruct (convert_payment_gate (fun _ => inl (JObj [("a", JNum (NInt 1))])) ["cs_1"]
              "2024-01-01T00:00:00.000Z" None (Some "cs_1")
              {| Routes.jsonInput := "{" ++ str LF ++ "}"; Routes.outputFormat := "csv";
                 Routes.tableName := None; Routes.sessionId := Some EmptyString |}
              (JObj [("a", JNum (NInt 1))]) eq_refl eq_refl)
    as [result [Hresp [Hlines _]]].
  exists result. split; [exact Hresp|exact Hlines].
Defined.

(** X14. The errors of the conversion route come before the gate.  A request
    with an empty text or a format other than sql and csv is answered 400
    with the validation error and is not parsed; a valid request whose text
    does not parse is answered 400 with "Invalid JSON format" and the message
    of the parser, whatever its number of lines and whether it is paid or
    not; a request is answered with a result, status 200, exactly when it is
    valid and its text parses. *)
Theorem convert_errors_first
    (JSON_parse : string -> any + string) (paidSessions : list string) (now : string)
    (query header : option string) (request : Routes.ConversionRequest) :
  (Routes.validRequest request = false ->
   Routes.convert JSON_parse paidSessions now query header request
   = {| Routes.status := 400; Routes.body := Routes.ValidationBody |})
  /\ (forall message,
        Routes.validRequest request = true ->
        JSON_parse (Routes.jsonInput request) = inr message ->
        Routes.convert JSON_parse paidSessions now query header request
        = {| Routes.status := 400;
             Routes.body := Routes.InvalidJSONBody "Invalid JSON format" message |})
  /\ (Routes.status (Routes.convert JSON_parse paidSessions now query header request)
      = 200%nat
      <-> Routes.validRequest request = true
          /\ exists value, JSON_parse (Routes.jsonInput request) = inl value).
Proof.
  unfold Routes.convert. split; [intros ->; reflexivity|].
  split; [intros message -> ->; reflexivity|].
  destruct (Routes.validRequest request); cbn [negb].
  - destruct (JSON_parse (Routes.jsonInput request)) as [value|message].
    + split; [intros _; split; [reflexivity|now exists value]|intros _].
      destruct (_ && _); reflexivity.
    + split; [discriminate|]. intros [_ [value Hv]]. discriminate Hv.
  - split; [discriminate|]. intros [H _]. discriminate H.
Qed.

(** ** The success route *)

(** X15. The success route converts a stored conversion once and without any
    limit.  When the storage holds a conversion under the given id and its
    text parses, the response is the generated text with no payment
    required, whatever the number of lines and with no paid session asked
    for, and it is the result the conversion route gives a paid session for
    the same text, format and table name; the conversion is then deleted and
    the other ones are kept, so a second call with the same id is answered
    404. *)
Theorem success_converts_once
    (JSON_parse : string -> any + string) (storage : Storage.MemStorage)
    (now : string) (id : string) (pending : Storage.PendingConversion) (value : any)
    (Hstorage : Storage.wellFormed storage)
    (Hid : id <> EmptyString)
    (Hpending : Storage.getPendingConversion storage id = Some pending)
    (Hparse : JSON_parse (Storage.jsonInput pending) = inl value) :
  let result :=
    {| Routes.output :=
         Routes.generate now (Storage.outputFormat pending)
           (Routes.orDefault (Storage.tableName pending) "converted_data")
           (fst (flatten value));
       Routes.lineCount := S (Routes.occurrences LF (Storage.jsonInput pending));
       Routes.nestingLevel := height value;
       Routes.requiresPayment := false |} in
  let response := {| Routes.status := 200; Routes.body := Routes.ResultBody result |} in
  Routes.success JSON_parse storage now (Some id)
  = (Storage.deletePendingConversion storage id, response)
  /\ (forall later,
        snd (Routes.success JSON_parse (Storage.deletePendingConversion storage id)
               later (Some id))
        = {| Routes.status := 404;
             Routes.body := Routes.MessageBody
               "Pending conversion not found. Session may have expired." |})
  /\ (forall other,
        other <> id ->
        Storage.getPendingConversion (Storage.deletePendingConversion storage id) other
        = Storage.getPendingConversion storage other)
  /\ (forall paidSessions paidId header,
        paidId <> EmptyString -> mem paidId paidSessions = true ->
        Routes.validRequest
          {| Routes.jsonInput := Storage.jsonInput pending;
             Routes.outputFormat := Storage.outputFormat pending;
             Routes.tableName := Storage.tableName pending;
             Routes.sessionId := None |} = true ->
        Routes.convert JSON_parse paidSessions now (Some paidId) header
          {| Routes.jsonInput := Storage.jsonInput pending;
             Routes.outputFormat := Storage.outputFormat pending;
             Routes.tableName := Storage.tableName pending;
             Routes.sessionId := None |}
        = response).
Proof.
  intros result response.
  assert (Htruthy : Routes.truthy (Some id) = true)
    by (destruct id; [congruence|reflexivity]).
  assert (Hor : Routes.orDefault (Some id) EmptyString = id)
    by (destruct id; [congruence|reflexivity]).
  assert (Hdepth : maxNestingLevel (parseAndFlattenJSON value) = height value)
    by (unfold parseAndFlattenJSON; simpl; apply getNestingLevel_height).
  split; [|split; [|split]].
  - unfold Routes.success. rewrite Htruthy, Hor, Hpending, Hparse. cbn [negb].
    subst response result. rewrite lineCountOf_occurrences, Hdepth. reflexivity.
  - intros later. unfold Routes.success. rewrite Htruthy, Hor. cbn [negb].
    unfold Storage.getPendingConversion, Storage.deletePendingConversion.
    now rewrite Map_get_delete_same.
  - intros other Hother. now apply Map_get_delete_other.
  - intros paidSessions paidId header Hpaid Hmem Hvalid.
    unfold Routes.convert. rewrite Hvalid. cbn [negb Routes.jsonInput].
    rewrite Hparse.
    assert (Hfirst : Routes.isPaidSession paidSessions
                       (Routes.firstTruthy (Some paidId) None header) = true).
    { unfold Routes.firstTruthy. destruct paidId; [congruence|]. simpl. exact Hmem. }
    cbn [Routes.sessionId]. rewrite Hfirst, andb_false_r.
    subst response result. rewrite lineCountOf_occurrences, Hdepth. reflexivity.
Qed.

Lemma success_converts_once_witness :
  fst (Routes.success (fun _ => inl (JArr []))
         [("p1", {| Storage.sessionId := "p1"; Storage.jsonInput := "[]";
                    Storage.outputFormat := "csv"; Storage.tableName := None;
                    Storage.createdAt := "d" |})] "now" (Some "p1"))
  = [].
Proof.
  rewrite (proj1 (success_converts_once (fun _ => inl (JArr []))
             [("p1", {| Storage.sessionId := "p1"; Storage.jsonInput := "[]";
                        Storage.outputFormat := "csv"; Storage.tableName := None;
                        Storage.createdAt := "d" |})] "now" "p1"
             {| Storage.sessionId := "p1"; Storage.jsonInput := "[]";
                Storage.outputFormat := "csv"; Storage.tableName := None;
                Storage.createdAt := "d" |} (JArr [])
             ltac:(repeat constructor; intros [])
             ltac:(discriminate) eq_refl eq_refl)).
  reflexivity.
Defined.


(** ** The webhook and the paid sessions *)

(** X17. The webhook only ever adds to the paid sessions, and only on a
    verified event.  Every paid session stays paid; a session that becomes
    paid was the id of a [checkout.session.completed] event that
    [constructEvent] accepted, for a request that carried a signature while
    the webhook secret was set; and once a session is paid in this way a
    valid conversion request that names it in its query is never asked for
    payment, however many lines its text has. *)
Theorem webhook_marks_paid
    (constructEvent : option string -> string -> string -> string
                      -> Routes.StripeEvent + string)
    (env : Routes.Env) (paidSessions : list string) (sig : option string)
    (rawBody : string) :
  let paidSessions' := fst (Routes.webhook constructEvent env paidSessions sig rawBody) in
  (forall s, mem s paidSessions = true -> mem s paidSessions' = true)
  /\ (forall s,
        mem s paidSessions' = true -> mem s paidSessions = false ->
        Routes.truthy sig = true
        /\ Routes.truthy (Routes.STRIPE_WEBHOOK_SECRET env) = true
        /\ exists event,
             constructEvent (Routes.STRIPE_SECRET_KEY env) rawBody
               (Routes.orDefault sig EmptyString)
               (Routes.orDefault (Routes.STRIPE_WEBHOOK_SECRET env) EmptyString)
             = inl event
             /\ Routes.type event = "checkout.session.completed"
             /\ Routes.objectId event = Some s)
  /\ (forall event s,
        Routes.truthy sig = true ->
        Routes.truthy (Routes.STRIPE_WEBHOOK_SECRET env) = true ->
        constructEvent (Routes.STRIPE_SECRET_KEY env) rawBody
          (Routes.orDefault sig EmptyString)
          (Routes.orDefault (Routes.STRIPE_WEBHOOK_SECRET env) EmptyString)
        = inl event ->
        Routes.type event = "checkout.session.completed" ->
        Routes.objectId event = Some s -> s <> EmptyString ->
        mem s paidSessions' = true
        /\ forall JSON_parse now header request value,
             Routes.validRequest request = true ->
             JSON_parse (Routes.jsonInput request) = inl value ->
             exists result,
               Routes.convert JSON_parse paidSessions' now (Some s) header request
               = {| Routes.status := 200; Routes.body := Routes.ResultBody result |}
               /\ Routes.requiresPayment result = false
               /\ Routes.output result <> EmptyString).
Proof.
  intros paidSessions'. subst paidSessions'. unfold Routes.webhook.
  split; [|split].
  - intros s Hs. destruct (negb (Routes.truthy sig)); [exact Hs|].
    destruct (negb (Routes.truthy (Routes.STRIPE_WEBHOOK_SECRET env))); [exact Hs|].
    destruct (constructEvent _ _ _ _) as [event|message]; [|exact Hs].
    cbn [fst]. destruct (Routes.type event =? _); [|exact Hs].
    destruct (Routes.truthy (Routes.objectId event)); [|exact Hs].
    rewrite mem_Set_add, Hs. reflexivity.
  - intros s Hnew Hold.
    destruct (Routes.truthy sig); cbn [negb] in *; [|cbn [fst] in Hnew; congruence].
    destruct (Routes.truthy (Routes.STRIPE_WEBHOOK_SECRET env)); cbn [negb] in *;
      [|cbn [fst] in Hnew; congruence].
    destruct (constructEvent _ _ _ _) as [event|message];
      [|cbn [fst] in Hnew; congruence].
    cbn [fst] in Hnew.
    destruct (String.eqb_spec (Routes.type event) "checkout.session.completed")
      as [Htype|]; [|congruence].
    destruct (Routes.objectId event) as [[|c id]|] eqn:Hobj;
      cbn [Routes.truthy Routes.orDefault] in Hnew; try congruence.
    rewrite mem_Set_add, Hold in Hnew. cbn [orb] in Hnew.
    apply String.eqb_eq in Hnew. subst s.
    repeat split. exists event. repeat split; assumption.
  - intros event s Hsig Hsecret Hevent Htype Hobj Hs.
    rewrite Hsig, Hsecret, Hevent. cbn [negb fst]. rewrite Htype, Hobj.
    rewrite String.eqb_refl.
    assert (Htruthy : Routes.truthy (Some s) = true)
      by (destruct s; [congruence|reflexivity]).
    assert (Hor : Routes.orDefault (Some s) EmptyString = s)
      by (destruct s; [congruence|reflexivity]).
    rewrite Htruthy, Hor.
    assert (Hmem : mem s (Set_add paidSessions s) = true)
      by (rewrite mem_Set_add, String.eqb_refl; apply orb_true_r).
    split; [exact Hmem|].
    intros JSON_parse now header request value Hvalid Hparse.
    unfold Routes.convert. rewrite Hvalid, Hparse. cbn [negb].
    assert (Hpaid : Routes.isPaidSession (Set_add paidSessions s)
                      (Routes.firstTruthy (Some s) (Routes.sessionId request) header)
                    = true).
    { unfold Routes.firstTruthy. rewrite Htruthy. destruct s; [congruence|exact Hmem]. }
    rewrite Hpaid, andb_false_r. eexists. split; [reflexivity|]. cbn.
    split; [reflexivity|apply generate_not_empty].
Qed.

(** ** The checkout route *)



(** ** Name collisions inside one object *)

Section Collisions.

Lemma get_mergeMissing r : forall base k,
  get (mergeMissing base r) k = if has base k then get base k else get r k.
Proof.
  unfold mergeMissing. induction r as [|[k0 v0] r IH]; intros base k; simpl.
  - destruct (has base k) eqn:E; [reflexivity|now apply get_missing].
  - rewrite IH. destruct (has base k0) eqn:E0.
    + destruct (String.eqb_spec k0 k) as [<-|]; [now rewrite E0|reflexivity].
    + rewrite has_set, get_set.
      destruct (String.eqb_spec k0 k) as [<-|]; simpl; [now rewrite E0|reflexivity].
Qed.

Lemma get_spread r : forall base k,
  NoDup (keys r) ->
  get (spread base r) k = if has r k then get r k else get base k.
Proof.
  unfold spread. induction r as [|[k0 v0] r IH]; intros base k Hnd; [reflexivity|].
  simpl in Hnd. inversion Hnd as [|? ? Hk0 Hnd']; subst.
  simpl. rewrite IH by assumption. rewrite get_set.
  destruct (String.eqb_spec k0 k) as [<-|]; [|reflexivity].
  destruct (has r k0) eqn:E; [|reflexivity].
  apply has_In in E. contradiction.
Qed.

End Collisions.


(** ** Typed columns hold no quoted text *)

Section TypedColumns.

Lemma existsb_false_In {A : Type} (f : A -> bool) l x :
  existsb f l = false -> In x l -> f x = false.
Proof.
  intros Hex Hin. destruct (f x) eqn:E; [|reflexivity].
  rewrite <- Hex. symmetry. apply existsb_exists. now exists x.
Qed.

Lemma inferSQLType_typed col values :
  inferSQLType col values = "BOOLEAN" \/ inferSQLType col values = "BIGINT"
  \/ inferSQLType col values = "DOUBLE PRECISION" ->
  existsb isTextValue values = false
  /\ (inferSQLType col values = "BOOLEAN" -> existsb isNumberValue values = false)
  /\ (inferSQLType col values = "BIGINT" -> forallb finiteIntegerIfNumber values = true).
Proof.
  unfold inferSQLType. rewrite profileOf_spec.
  cbn [hasBoolean hasNumber hasString allIntegers maxLength].
  destruct (existsb isBooleanValue values), (existsb isNumberValue values),
    (existsb isTextValue values), (forallb finiteIntegerIfNumber values);
    cbn [andb negb];
    try (intros _; repeat split; (reflexivity || discriminate));
    destruct (maxTextLength values =? 0)%nat;
    try destruct (maxTextLength values <=? 255)%nat;
    intros [H|[H|H]]; discriminate H.
Qed.

End TypedColumns.

(** X20. A column that is given a typed SQL type holds no quoted text.  In a
    BOOLEAN column every value is null or a boolean and is written NULL, TRUE
    or FALSE.  In a BIGINT or DOUBLE PRECISION column every value is null, a
    boolean or a number, and is written NULL, TRUE, FALSE or the text of the
    number; in a BIGINT column every number is a finite integer.  So a
    boolean can sit in a numeric column, where it is still written TRUE or
    FALSE, but a quoted string never does. *)
Theorem typed_columns_unquoted (col : string) (values : list any) (value : any)
    (Hin : In value values) :
  (inferSQLType col values = "BOOLEAN" ->
   (isNullish value = true \/ isBooleanValue value = true)
   /\ In (sqlValue value) ["NULL"; "TRUE"; "FALSE"])
  /\ (inferSQLType col values = "BIGINT"
      \/ inferSQLType col values = "DOUBLE PRECISION" ->
      isTextValue value = false
      /\ (In (sqlValue value) ["NULL"; "TRUE"; "FALSE"]
          \/ exists n, value = JNum n /\ Number_isFinite n = true
                       /\ sqlValue value = Number_toString n))
  /\ (inferSQLType col values = "BIGINT" ->
      forall n, value = JNum n -> exists z, n = NInt z /\ sqlValue value = Z_toString z)
  /\ inferSQLType col [JBool true; JNum (NInt 1)] = "BIGINT".
Proof.
  split; [|split; [|split; [|reflexivity]]].
  - intros Htype.
    destruct (inferSQLType_typed col values (or_introl Htype)) as [Htext [Hnum _]].
    pose proof (existsb_false_In _ _ _ Htext Hin) as Ht.
    pose proof (existsb_false_In _ _ _ (Hnum Htype) Hin) as Hn.
    destruct value as [| |[]|n|s|items|entries]; try discriminate; simpl; tauto.
  - intros Htype.
    assert (Htyped : inferSQLType col values = "BOOLEAN"
                     \/ inferSQLType col values = "BIGINT"
                     \/ inferSQLType col values = "DOUBLE PRECISION") by tauto.
    destruct (inferSQLType_typed col values Htyped) as [Htext _].
    pose proof (existsb_false_In _ _ _ Htext Hin) as Ht.
    split; [exact Ht|].
    destruct value as [| |[]|n|s|items|entries]; try discriminate; simpl; try tauto.
    destruct (Number_isFinite n) eqn:Hfin; simpl; [|tauto].
    right. exists n. repeat split. exact Hfin.
  - intros Htype n ->.
    destruct (inferSQLType_typed col values (or_intror (or_introl Htype)))
      as [_ [_ Hint]].
    specialize (Hint Htype). rewrite forallb_forall in Hint.
    specialize (Hint _ Hin). simpl in Hint.
    destruct n; try discriminate Hint. now exists z.
Qed.

Lemma typed_columns_unquoted_witness :
  In (sqlValue (JBool true)) ["NULL"; "TRUE"; "FALSE"].
Proof.
  refine (proj2 (proj1 (typed_columns_unquoted "c" [JBool true; JNull] (JBool true) _)
                   _)).
  - simpl. tauto.
  - reflexivity.
Defined.
